(** * De Palma: assignment orchestrator, e-mail sender and memory store

    A shallow embedding of the e-mail receiver, orchestrator and e-mail
    sender Lambda handlers of the repository and of the memory store they
    share.
    JavaScript promises are modelled by an outcome type (resolved or
    rejected); the module-level clients ([memoryService], [claudeClient],
    [lambdaClient], [sesService]), [uuidv4], [new Date()] and the two
    placeholder calls of the orchestrator (roster and scheduler) by a record
    of collaborators; the effects of a run by explicit state passing over a
    [World].  A rejected call keeps the effects that happened before it, as
    in JavaScript. *)

From Stdlib Require Import Floats.PrimFloat.
From stdpp Require Import base strings list gmap.

#[local] Set Warnings "-inexact-float".

(** ** JavaScript values *)

(** A thrown value: [new Error(msg)] has name ["Error"], a failed property
    access on [undefined] has name ["TypeError"]. *)
Record JsError : Type := mkJsError {
  errorName : string;
  errorMessage : string
}.

Definition newError (msg : string) : JsError := mkJsError "Error" msg.
Definition typeError (msg : string) : JsError := mkJsError "TypeError" msg.

(** The settled state of a promise. *)
Inductive Outcome (A : Type) : Type :=
| Resolved (a : A)
| Rejected (e : JsError).
Arguments Resolved {A} a.
Arguments Rejected {A} e.

(** Truthiness of a JavaScript number: [0], [-0] and [NaN] are falsy. *)
Definition jsTruthyNumber (x : float) : bool :=
  negb (PrimFloat.eqb x 0%float) && PrimFloat.eqb x x.

(** Truthiness of a JavaScript string: only the empty string is falsy. *)
Definition jsTruthyString (s : string) : bool :=
  negb (String.eqb s "").

(** [x || d] on an optional string ([undefined] is falsy). *)
Definition orString (x : option string) (d : string) : string :=
  match x with
  | Some s => if jsTruthyString s then s else d
  | None => d
  end.

(** [x || d] on an optional number. *)
Definition orNumber (x : option float) (d : float) : float :=
  match x with
  | Some c => if jsTruthyNumber c then c else d
  | None => d
  end.

(** ** Data model (the shapes used by the handlers; [@/types]) *)

Inductive MessageType : Type := incoming | outgoing.

Record Message : Type := mkMessage {
  msg_id : string;
  msg_from : string;
  msg_to : option string;
  msg_subject : string;
  msg_body : string;
  msg_timestamp : string;
  msg_type : MessageType
}.

Inductive TaskStatus : Type := pending | assigned | completed | cancelled.

Record Task : Type := mkTask {
  task_id : string;
  task_description : string;
  task_deadline : option string;
  task_skillsRequired : list string;
  task_priority : string;
  task_status : TaskStatus;
  task_requestedBy : string;
  task_assignedTo : option string;
  task_createdAt : string;
  task_updatedAt : string
}.

Record Decision : Type := mkDecision {
  decision_taskId : string;
  decision_assignedTo : string;
  decision_rationale : string;
  decision_timestamp : string;
  decision_confidence : float
}.

Record TeamMember : Type := mkTeamMember {
  member_name : string;
  member_email : option string;
  member_skills : list string;
  member_currentWorkload : nat;
  member_availability : string
}.

Record TaskRequest : Type := mkTaskRequest {
  request_description : string;
  request_deadline : option string;
  request_skillsRequired : list string;
  request_priority : option string
}.

Record EmailData : Type := mkEmailData {
  email_messageId : string;
  email_from : string;
  email_to : list string;
  email_subject : string;
  email_timestamp : string
}.

Record EventData : Type := mkEventData {
  data_email : EmailData;
  data_taskRequest : TaskRequest;
  data_message : Message
}.

Record OrchestratorEvent : Type := mkOrchestratorEvent {
  event_type : string;
  event_data : option EventData;
  event_source : string
}.

(** One entry of the scheduler's answer; the scheduler's output is untyped
    in the source, so every field read through [?.] or [||] is optional. *)
Record Candidate : Type := mkCandidate {
  cand_assignee : option string;
  cand_confidence : option float;
  cand_rationale : string
}.

Record Recommendation : Type := mkRecommendation {
  rec_assignment : option Candidate;
  rec_alternatives : list Candidate
}.

(** The structured answer of [claudeClient.generateAssignment]. *)
Record AssignmentDecision : Type := mkAssignmentDecision {
  ad_assignee : string;
  ad_rationale : string;
  ad_emailSubject : string;
  ad_emailBody : string
}.

Record OutgoingEmail : Type := mkOutgoingEmail {
  out_to : list string;
  out_subject : string;
  out_body : string
}.

Record EmailSenderEvent : Type := mkEmailSenderEvent {
  sender_type : string;
  sender_emailData : OutgoingEmail;
  sender_taskId : string
}.

Record SendParams : Type := mkSendParams {
  param_assignee : string;
  param_assigneeEmail : string;
  param_ccEmails : list string;
  param_subject : string;
  param_body : string;
  param_taskId : string
}.

Record MemoryContext : Type := mkMemoryContext {
  ctx_recentMessages : list Message;
  ctx_activeTasks : list Task;
  ctx_recentDecisions : list Decision
}.

(** The body of a handler's response before [JSON.stringify]. *)
Inductive Body : Type :=
| BodyError (error : string)
| BodyMessage (message : string)
| BodyAssigned (message : string) (task : Task) (assignment : AssignmentDecision)
| BodyHealth (status : string) (timestamp : string) (memory : string)
| BodySent (message : string) (taskId : option string) (recipients : list string).

Record Response : Type := mkResponse {
  statusCode : nat;
  body : Body
}.

(** ** The memory store *)

Record Store : Type := mkStore {
  store_tasks : gmap string Task;
  store_decisions : list Decision;
  store_messages : list Message
}.

Definition emptyStore : Store := mkStore ∅ [] [].

(** A request to the memory service. *)
Inductive MemoryOp : Type :=
| OpBuildMemoryContext
| OpStoreActiveTask (t : Task)
| OpStoreDecision (d : Decision)
| OpStoreMessage (m : Message)
| OpGetMemoryStats.

(** A request sent to the outbound mail transport by [sesService]. *)
Inductive SesCall : Type :=
| SesAssignment (name : string) (assigneeEmail : option string)
    (ccEmails : list string) (subject body taskId : string)
| SesNotification (to : list string) (subject body : string).

(** What a run did, oldest first: store writes that were applied and
    requests issued to the collaborators. *)
Inductive Effect : Type :=
| StoreActiveTask (t : Task)
| StoreDecision (d : Decision)
| StoreMessage (m : Message)
| ConsultOptimizer (attempt : nat)
| GenerateAssignment (description : string)
| InvokeEmailSender (e : EmailSenderEvent)
| SesSend (c : SesCall).

Record World : Type := mkWorld {
  store : Store;
  trace : list Effect;
  uuidCalls : nat;
  dateCalls : nat;
  optimizerCalls : nat
}.

Definition initialWorld : World := mkWorld emptyStore [] 0 0 0.

(** ** Collaborators

    Everything a handler reaches outside its own file.  The scheduler takes
    the number of earlier consultations, so that a collaborator that fails
    on its first calls and answers later can be described. *)
Record Collaborators : Type := mkCollaborators {
  uuidv4_nth : nat -> string;
  isoTime_nth : nat -> string;
  memoryAccepts : Store -> MemoryOp -> bool;
  isRecentDecision : Decision -> bool;
  memoryStats : Store -> string;
  teamDataFromSheets : Outcome (list TeamMember);
  schedulerRecommendation :
    nat -> Task -> list TeamMember -> Outcome Recommendation;
  generateAssignment :
    string -> list TeamMember -> Recommendation -> MemoryContext ->
    Outcome AssignmentDecision;
  lambdaAccepts : EmailSenderEvent -> bool;
  sesAccepts : SesCall -> bool;
  emailDomain : string
}.

(** ** The monad of a handler: world passing with rejection *)

Definition M (A : Type) : Type := World -> World * Outcome A.

Definition ret {A} (a : A) : M A := fun w => (w, Resolved a).

Definition throw {A} (e : JsError) : M A := fun w => (w, Rejected e).

Definition bind {A B} (m : M A) (k : A -> M B) : M B :=
  fun w =>
    match m w with
    | (w', Resolved a) => k a w'
    | (w', Rejected e) => (w', Rejected e)
    end.

(** [try { m } catch (error) { h error }] *)
Definition tryCatch {A} (m : M A) (h : JsError -> M A) : M A :=
  fun w =>
    match m w with
    | (w', Resolved a) => (w', Resolved a)
    | (w', Rejected e) => h e w'
    end.

Definition await {A} (o : Outcome A) : M A := fun w => (w, o).

Declare Scope js_scope.
Delimit Scope js_scope with js.
Notation "x <- m ;; k" := (bind m (fun x => k))
  (at level 100, m at next level, right associativity) : js_scope.
Notation "m ;;; k" := (bind m (fun _ => k))
  (at level 100, right associativity) : js_scope.
#[local] Open Scope js_scope.

Definition emit (e : Effect) : M unit :=
  fun w => (mkWorld (store w) (trace w ++ [e]) (uuidCalls w) (dateCalls w)
              (optimizerCalls w), Resolved tt).

Definition setStore (s : Store) : M unit :=
  fun w => (mkWorld s (trace w) (uuidCalls w) (dateCalls w) (optimizerCalls w),
            Resolved tt).

Definition getStore : M Store := fun w => (w, Resolved (store w)).

Section Runtime.
Variable C : Collaborators.

(** [uuidv4()] *)
Definition uuidv4 : M string :=
  fun w => (mkWorld (store w) (trace w) (S (uuidCalls w)) (dateCalls w)
              (optimizerCalls w),
            Resolved (uuidv4_nth C (uuidCalls w))).

(** [new Date().toISOString()] *)
Definition newDateISO : M string :=
  fun w => (mkWorld (store w) (trace w) (uuidCalls w) (S (dateCalls w))
              (optimizerCalls w),
            Resolved (isoTime_nth C (dateCalls w))).
End Runtime.

(** ** MemoryService *)

Module MemoryService.

(** The MemoryService class (imported from [@/lib/memory]) is not among the
    sources; only its callers are.  Its store is modelled from sections 3,
    4.2 and 6 of the specification. *)

(** Modelled from the spec: the default size N of the recent-message window
    of MemoryService ("default N=20"). *)
Definition HOT_WINDOW : nat := 20.

(** Modelled from the spec: the terminal states of the Task lifecycle
    [pending -> assigned -> (completed | cancelled)]. *)
Definition isTerminal (s : TaskStatus) : bool :=
  match s with
  | completed | cancelled => true
  | pending | assigned => false
  end.

(** Modelled from the spec: the eviction of MemoryService's Hot tier, "a
    fixed-size sliding window of the N most recently stored Messages",
    evicted "strictly by recency (store order)": the oldest entries beyond
    [n] are dropped. *)
Definition slide (n : nat) (window : list Message) : list Message :=
  drop (length window - n) window.

(** Modelled from the spec: the store write behind
    MemoryService.storeMessage; the Message is appended in store order and
    the window slides. *)
Definition putMessage (n : nat) (m : Message) (s : Store) : Store :=
  mkStore (store_tasks s) (store_decisions s)
    (slide n (store_messages s ++ [m])).

(** Storing a sequence of Messages, first to last. *)
Definition putMessages (n : nat) (ms : list Message) (s : Store) : Store :=
  foldl (fun acc m => putMessage n m acc) s ms.

(** Modelled from the spec: Hot-tier retrieval of MemoryService, the
    recent-message window in store order. *)
Definition hotMessages (s : Store) : list Message := store_messages s.

(** Modelled from the spec: the store write behind
    MemoryService.storeActiveTask; "Task keyed by Task id". *)
Definition putTask (t : Task) (s : Store) : Store :=
  mkStore (<[task_id t := t]> (store_tasks s)) (store_decisions s)
    (store_messages s).

(** Modelled from the spec: the store write behind
    MemoryService.storeDecision; the Decision ledger is an append-only
    log. *)
Definition putDecision (d : Decision) (s : Store) : Store :=
  mkStore (store_tasks s) (store_decisions s ++ [d]) (store_messages s).

(** Modelled from the spec: the Tasks of MemoryService's Hot tier, "all
    Tasks not in a terminal state". *)
Definition activeTasks (s : Store) : list Task :=
  filter (fun t => isTerminal (task_status t) = false)
    ((map_to_list (store_tasks s)).*2).

Section Service.
Variable C : Collaborators.

(** Modelled from the spec: a call of MemoryService is a suspension point
    that may fail; the request is rejected when the backing table refuses
    it. *)
Definition request (op : MemoryOp) : M unit :=
  s <- getStore ;;
  if memoryAccepts C s op then ret tt
  else throw (newError "memory request failed").

(** Modelled from the spec: MemoryService.buildMemoryContext assembles the
    Hot tier and the Decisions of the recent horizon, reflecting all writes
    committed before the call. *)
Definition buildMemoryContext : M MemoryContext :=
  request OpBuildMemoryContext ;;;
  s <- getStore ;;
  ret (mkMemoryContext (hotMessages s) (activeTasks s)
         (List.filter (isRecentDecision C) (store_decisions s))).

(** Modelled from the spec: MemoryService.storeActiveTask. *)
Definition storeActiveTask (t : Task) : M unit :=
  request (OpStoreActiveTask t) ;;;
  s <- getStore ;;
  setStore (putTask t s) ;;;
  emit (StoreActiveTask t).

(** Modelled from the spec: MemoryService.storeDecision. *)
Definition storeDecision (d : Decision) : M unit :=
  request (OpStoreDecision d) ;;;
  s <- getStore ;;
  setStore (putDecision d s) ;;;
  emit (StoreDecision d).

(** Modelled from the spec: MemoryService.storeMessage, with the default
    window size. *)
Definition storeMessage (m : Message) : M unit :=
  request (OpStoreMessage m) ;;;
  s <- getStore ;;
  setStore (putMessage HOT_WINDOW m s) ;;;
  emit (StoreMessage m).

(** Modelled from the spec: MemoryService.getMemoryStats returns
    store-derived counters. *)
Definition getMemoryStats : M string :=
  request OpGetMemoryStats ;;;
  s <- getStore ;;
  ret (memoryStats C s).

(** Storing a sequence of Messages through the service, first to last. *)
Fixpoint storeMessages (ms : list Message) : M unit :=
  match ms with
  | [] => ret tt
  | m :: rest => storeMessage m ;;; storeMessages rest
  end.
End Service.

End MemoryService.

(** ** The orchestrator Lambda *)

Module Orchestrator.

(** [getTeamDataFromSheets]: the placeholder roster of the source. *)
Definition getTeamDataFromSheets : Outcome (list TeamMember) :=
  Resolved
    [ mkTeamMember "Alex" (Some "alex@team.com") ["backend"; "api"; "docs"]
        30 "available";
      mkTeamMember "Sarah" (Some "sarah@team.com")
        ["mobile"; "frontend"; "api"] 45 "available" ].

(** [getSchedulerRecommendation]: the placeholder of the source.  It reads
    [teamData[0].name], which throws on an empty roster, and
    [teamData[1]?.name], which does not. *)
Definition getSchedulerRecommendation (task : Task)
    (teamData : list TeamMember) : Outcome Recommendation :=
  match teamData with
  | [] => Rejected (typeError "Cannot read properties of undefined")
  | first :: _ =>
      Resolved
        (mkRecommendation
           (Some (mkCandidate (Some (member_name first)) (Some 0.85%float)
                    "Best skill match and lowest workload"))
           [ mkCandidate (member_name <$> teamData !! 1)
               (Some 0.65%float)
               "Has some relevant skills but higher workload" ])
  end.

(** The collaborators with the roster and the scheduler as the source
    has them today. *)
Definition withSourceStubs (C : Collaborators) : Collaborators :=
  mkCollaborators (uuidv4_nth C) (isoTime_nth C) (memoryAccepts C)
    (isRecentDecision C) (memoryStats C)
    getTeamDataFromSheets
    (fun _ => getSchedulerRecommendation)
    (generateAssignment C) (lambdaAccepts C) (sesAccepts C) (emailDomain C).

(** [teamData.find(m => m.name === name)?.email] *)
Definition findTeamMemberEmail (name : string)
    (teamData : list TeamMember) : option string :=
  match List.find (fun m => String.eqb (member_name m) name) teamData with
  | Some member => member_email member
  | None => None
  end.

(** [schedulerRecommendation.assignment?.confidence] *)
Definition recommendedConfidence (r : Recommendation) : option float :=
  match rec_assignment r with
  | Some a => cand_confidence a
  | None => None
  end.

(** [schedulerRecommendation.assignment?.confidence || 0.8] *)
Definition decisionConfidence (r : Recommendation) : float :=
  orNumber (recommendedConfidence r) 0.8%float.

Section Handlers.
Variable C : Collaborators.

Definition awaitTeamData : M (list TeamMember) :=
  await (teamDataFromSheets C).

Definition awaitSchedulerRecommendation (task : Task)
    (teamData : list TeamMember) : M Recommendation :=
  fun w =>
    (mkWorld (store w) (trace w ++ [ConsultOptimizer (optimizerCalls w)])
       (uuidCalls w) (dateCalls w) (S (optimizerCalls w)),
     schedulerRecommendation C (optimizerCalls w) task teamData).

Definition awaitGenerateAssignment (description : string)
    (teamData : list TeamMember) (r : Recommendation)
    (memoryContext : MemoryContext) : M AssignmentDecision :=
  emit (GenerateAssignment description) ;;;
  await (generateAssignment C description teamData r memoryContext).

(** [lambdaClient.send(new InvokeCommand(...))] with invocation type
    [Event]: the request is queued, the sender runs on its own. *)
Definition lambdaInvoke (e : EmailSenderEvent) : M unit :=
  emit (InvokeEmailSender e) ;;;
  if lambdaAccepts C e then ret tt
  else throw (newError "Lambda invocation failed").

Definition sendAssignmentEmail (params : SendParams) : M unit :=
  let emailEvent :=
    mkEmailSenderEvent "assignment_email"
      (mkOutgoingEmail (param_assigneeEmail params :: param_ccEmails params)
         (param_subject params) (param_body params))
      (param_taskId params) in
  tryCatch (lambdaInvoke emailEvent) (fun error => throw error).

Definition handleEmailReceived (event : OrchestratorEvent) : M Response :=
  data <- match event_data event with
          | Some d => ret d
          | None => throw (typeError "Cannot destructure event.data")
          end ;;
  let email := data_email data in
  let taskRequest := data_taskRequest data in
  memoryContext <- MemoryService.buildMemoryContext C ;;
  id <- uuidv4 C ;;
  createdAt <- newDateISO C ;;
  updatedAt <- newDateISO C ;;
  let task :=
    mkTask id (request_description taskRequest)
      (request_deadline taskRequest) (request_skillsRequired taskRequest)
      (orString (request_priority taskRequest) "medium") pending
      (email_from email) None createdAt updatedAt in
  MemoryService.storeActiveTask C task ;;;
  teamData <- awaitTeamData ;;
  schedulerRecommendation <- awaitSchedulerRecommendation task teamData ;;
  assignmentDecision <-
    awaitGenerateAssignment (task_description task) teamData
      schedulerRecommendation memoryContext ;;
  updatedAt' <- newDateISO C ;;
  let task' :=
    mkTask id (task_description task) (task_deadline task)
      (task_skillsRequired task) (task_priority task) assigned
      (task_requestedBy task) (Some (ad_assignee assignmentDecision))
      createdAt updatedAt' in
  MemoryService.storeActiveTask C task' ;;;
  timestamp <- newDateISO C ;;
  MemoryService.storeDecision C
    (mkDecision id (ad_assignee assignmentDecision)
       (ad_rationale assignmentDecision) timestamp
       (decisionConfidence schedulerRecommendation)) ;;;
  match findTeamMemberEmail (ad_assignee assignmentDecision) teamData with
  | Some assigneeEmail =>
      if jsTruthyString assigneeEmail then
        sendAssignmentEmail
          (mkSendParams (ad_assignee assignmentDecision) assigneeEmail
             [email_from email] (ad_emailSubject assignmentDecision)
             (ad_emailBody assignmentDecision) id)
      else ret tt
  | None => ret tt
  end ;;;
  ret (mkResponse 200
         (BodyAssigned "Task assigned successfully" task'
            assignmentDecision)).

Definition handleManualTask (event : OrchestratorEvent) : M Response :=
  ret (mkResponse 200
         (BodyMessage "Manual task handling not implemented yet")).

Definition handleHealthCheck : M Response :=
  stats <- MemoryService.getMemoryStats C ;;
  timestamp <- newDateISO C ;;
  ret (mkResponse 200 (BodyHealth "healthy" timestamp stats)).

(** The body of the [try] block of [handler]. *)
Definition route (event : OrchestratorEvent) : M Response :=
  if String.eqb (event_type event) "email_received" then
    handleEmailReceived event
  else if String.eqb (event_type event) "manual_task" then
    handleManualTask event
  else if String.eqb (event_type event) "health_check" then
    handleHealthCheck
  else throw (newError ("Unknown event type: " +:+ event_type event)).

Definition handler (event : OrchestratorEvent) : M Response :=
  tryCatch (route event)
    (fun error => ret (mkResponse 500 (BodyError "Internal server error"))).
End Handlers.

End Orchestrator.

(** ** The e-mail sender Lambda *)

Module EmailSender.

Section Handlers.
Variable C : Collaborators.

Definition sesSend (c : SesCall) : M unit :=
  emit (SesSend c) ;;;
  if sesAccepts C c then ret tt
  else throw (newError "SES request failed").

Definition sendAssignmentEmail (event : EmailSenderEvent) : M Response :=
  let emailData := sender_emailData event in
  let taskId := sender_taskId event in
  tryCatch
    (let assigneeEmail := head (out_to emailData) in
     let ccEmails := drop 1 (out_to emailData) in
     sesSend (SesAssignment "Unknown" assigneeEmail ccEmails
                (out_subject emailData) (out_body emailData) taskId) ;;;
     id <- uuidv4 C ;;
     timestamp <- newDateISO C ;;
     let sentMessage :=
       mkMessage id ("louie@" +:+ emailDomain C) assigneeEmail
         (out_subject emailData) (out_body emailData) timestamp outgoing in
     MemoryService.storeMessage C sentMessage ;;;
     ret (mkResponse 200
            (BodySent "Assignment email sent successfully" (Some taskId)
               (out_to emailData))))
    (fun error => throw error).

Definition sendNotificationEmail (event : EmailSenderEvent) : M Response :=
  let emailData := sender_emailData event in
  tryCatch
    (sesSend (SesNotification (out_to emailData) (out_subject emailData)
                (out_body emailData)) ;;;
     id <- uuidv4 C ;;
     timestamp <- newDateISO C ;;
     let sentMessage :=
       mkMessage id ("louie@" +:+ emailDomain C) (head (out_to emailData))
         (out_subject emailData) (out_body emailData) timestamp outgoing in
     MemoryService.storeMessage C sentMessage ;;;
     ret (mkResponse 200
            (BodySent "Notification email sent successfully" None
               (out_to emailData))))
    (fun error => throw error).

Definition route (event : EmailSenderEvent) : M Response :=
  if String.eqb (sender_type event) "assignment_email" then
    sendAssignmentEmail event
  else if String.eqb (sender_type event) "notification_email" then
    sendNotificationEmail event
  else throw (newError ("Unknown email type: " +:+ sender_type event)).

Definition handler (event : EmailSenderEvent) : M Response :=
  tryCatch (route event)
    (fun error => ret (mkResponse 500 (BodyError "Failed to send email"))).
End Handlers.

End EmailSender.

(** ** Observing a run *)

(** The effects a computation adds to the trace of the world it starts in. *)
Definition runTrace {A} (m : M A) (w : World) : list Effect :=
  drop (length (trace w)) (trace (m w).1).

(** The requests a trace sends to the outbound mail transport. *)
Definition sesSends (tr : list Effect) : list SesCall :=
  omap (fun x => match x with SesSend c => Some c | _ => None end) tr.

(** The value of a resolved promise. *)
Definition resolved {A} (o : Outcome A) : option A :=
  match o with
  | Resolved a => Some a
  | Rejected _ => None
  end.

(** The Task carried by a success response. *)
Definition responseTask (o : Outcome Response) : option Task :=
  match o with
  | Resolved (mkResponse _ (BodyAssigned _ t _)) => Some t
  | _ => None
  end.

(** What the [catch] block of the orchestrator's [handler] returns. *)
Definition internalServerError : Outcome Response :=
  Resolved (mkResponse 500 (BodyError "Internal server error")).

(** The invocations of the e-mail sender a trace queues. *)
Definition invocations (tr : list Effect) : list EmailSenderEvent :=
  omap (fun x => match x with InvokeEmailSender e => Some e | _ => None end) tr.

(** The transport request the e-mail sender issues for an assignment
    event. *)
Definition assignmentCall (ev : EmailSenderEvent) : SesCall :=
  SesAssignment "Unknown" (head (out_to (sender_emailData ev)))
    (drop 1 (out_to (sender_emailData ev)))
    (out_subject (sender_emailData ev)) (out_body (sender_emailData ev))
    (sender_taskId ev).

(** An event type no [case] of the orchestrator's [switch] matches. *)
Definition unrecognized (e : OrchestratorEvent) : Prop :=
  event_type e <> "email_received" /\ event_type e <> "manual_task" /\
  event_type e <> "health_check".

(** [n] deliveries of the same event to the e-mail sender, one after the
    other. *)
Fixpoint deliver (C : Collaborators) (event : EmailSenderEvent) (n : nat)
    (w : World) : World :=
  match n with
  | 0 => w
  | S k => deliver C event k (EmailSender.handler C event w).1
  end.

(** ** The Task lifecycle of the specification *)

Inductive lifecycleStep : TaskStatus -> TaskStatus -> Prop :=
| step_assign : lifecycleStep pending assigned
| step_complete : lifecycleStep assigned completed
| step_cancel : lifecycleStep assigned cancelled.

(** Zero or more lifecycle steps: never backward. *)
Definition forward : TaskStatus -> TaskStatus -> Prop := rtc lifecycleStep.

(** A roster entry satisfies a required-capability set when it holds every
    capability of the set (the specification's notion; the handlers never
    compute it). *)
Definition satisfies (required : list string) (m : TeamMember) : bool :=
  forallb (fun s => existsb (String.eqb s) (member_skills m)) required.

Definition noCandidateSatisfies (required : list string)
    (roster : list TeamMember) : bool :=
  negb (existsb (satisfies required) roster).

(** ** Sample collaborators and events *)

Module Sample.

Definition ids (n : nat) : string :=
  "task-" +:+ String (Ascii.ascii_of_nat (48 + n)) "".

Definition times (n : nat) : string :=
  "2025-03-10T09:00:0" +:+ String (Ascii.ascii_of_nat (48 + n)) "Z".

(** A text generator that keeps the scheduler's primary candidate. *)
Definition followPrimary (description : string) (teamData : list TeamMember)
    (r : Recommendation) (ctx : MemoryContext) : Outcome AssignmentDecision :=
  Resolved
    (mkAssignmentDecision
       (default "nobody" (rec_assignment r ≫= cand_assignee))
       "Best match" ("Task Assignment - " +:+ description) "You are on it.").

(** A text generator that names someone who is not on the roster. *)
Definition nameStranger (description : string) (teamData : list TeamMember)
    (r : Recommendation) (ctx : MemoryContext) : Outcome AssignmentDecision :=
  Resolved
    (mkAssignmentDecision "Zed" "Zed knows" ("Task Assignment - " +:+ description)
       "You are on it.").

(** Every collaborator answers; roster and scheduler are the source's. *)
Definition reliable : Collaborators :=
  mkCollaborators ids times (fun _ _ => true) (fun _ => true)
    (fun _ => "stats")
    Orchestrator.getTeamDataFromSheets
    (fun _ => Orchestrator.getSchedulerRecommendation)
    followPrimary (fun _ => true) (fun _ => true) "depalma.work".

Definition stranger : Collaborators :=
  mkCollaborators ids times (fun _ _ => true) (fun _ => true)
    (fun _ => "stats")
    Orchestrator.getTeamDataFromSheets
    (fun _ => Orchestrator.getSchedulerRecommendation)
    nameStranger (fun _ => true) (fun _ => true) "depalma.work".

Definition inboundMessage : Message :=
  mkMessage "msg-1" "boss@team.com" (Some "louie@depalma.work")
    "Need someone for API documentation" "" "2025-03-10T08:59:00Z" incoming.

Definition request (skills : list string) : OrchestratorEvent :=
  mkOrchestratorEvent "email_received"
    (Some
       (mkEventData
          (mkEmailData "msg-1" "boss@team.com" ["louie@depalma.work"]
             "Need someone for API documentation" "2025-03-10T08:59:00Z")
          (mkTaskRequest "API documentation" (Some "Friday") skills None)
          inboundMessage))
    "email-receiver".

(** The roster of the source. *)
Definition roster : list TeamMember :=
  match Orchestrator.getTeamDataFromSheets with
  | Resolved l => l
  | Rejected _ => []
  end.

(** The Decision the first run records with [reliable]. *)
Definition decision0 : Decision :=
  mkDecision "task-0" "Alex" "Best match" "2025-03-10T09:00:03Z" 0.85%float.

(** Three messages whose claimed timestamps run against store order. *)
Definition stored : list Message :=
  [ mkMessage "m1" "ann@team.com" (Some "louie@depalma.work") "first"
      "a long body, stored first" "2025-03-12T10:00:00Z" incoming;
    mkMessage "m2" "bob@team.com" (Some "louie@depalma.work") "second" ""
      "2025-03-11T10:00:00Z" incoming;
    mkMessage "m3" "louie@depalma.work" (Some "ann@team.com") "third" "ok"
      "2025-03-10T10:00:00Z" outgoing ].

Definition unknownEvent : OrchestratorEvent :=
  mkOrchestratorEvent "calendar_sync" None "cron".

Definition assignmentMail : EmailSenderEvent :=
  mkEmailSenderEvent "assignment_email"
    (mkOutgoingEmail ["alex@team.com"; "boss@team.com"]
       "Task Assignment - API documentation" "You are on it.")
    "task-0".

End Sample.

(** ** The stages of one orchestration run

    [EmailRun C w id tr s] lists the ways a run of the orchestrator started
    in world [w] can end: [tr] is what the run added to the trace, [s] the
    store it leaves, [id] the identifier drawn for its Task. *)

Definition isPending (id : string) (t : Task) : Prop :=
  task_id t = id /\ task_status t = pending /\ task_assignedTo t = None.

Definition isAssigned (id : string) (t : Task) : Prop :=
  task_id t = id /\ task_status t = assigned.

(** The Decision of a run: its confidence comes from the scheduler's answer
    to this run's consultation, its assignee from the text generator. *)
Definition isDecisionOf (C : Collaborators) (w : World) (id : string)
    (t1 : Task) (d : Decision) : Prop :=
  decision_taskId d = id /\
  (exists task teamData r,
      schedulerRecommendation C (optimizerCalls w) task teamData = Resolved r /\
      decision_confidence d = Orchestrator.decisionConfidence r) /\
  (exists description teamData r ctx ad,
      generateAssignment C description teamData r ctx = Resolved ad /\
      decision_assignedTo d = ad_assignee ad /\
      decision_rationale d = ad_rationale ad) /\
  task_assignedTo t1 = Some (decision_assignedTo d).

(** The dispatch of a run, when there is one, is an assignment e-mail for
    the run's Task. *)
Definition isDispatchOf (id : string) (sent : option EmailSenderEvent) : Prop :=
  forall ev, sent = Some ev ->
    sender_taskId ev = id /\ sender_type ev = "assignment_email".

Inductive EmailRun (C : Collaborators) (w : World) (id : string) :
    list Effect -> Store -> Prop :=
| run_received :
    EmailRun C w id [] (store w)
| run_created t0 :
    isPending id t0 ->
    EmailRun C w id [StoreActiveTask t0] (MemoryService.putTask t0 (store w))
| run_consulted t0 :
    isPending id t0 ->
    EmailRun C w id
      [StoreActiveTask t0; ConsultOptimizer (optimizerCalls w)]
      (MemoryService.putTask t0 (store w))
| run_generated t0 :
    isPending id t0 ->
    EmailRun C w id
      [StoreActiveTask t0; ConsultOptimizer (optimizerCalls w);
       GenerateAssignment (task_description t0)]
      (MemoryService.putTask t0 (store w))
| run_assigned t0 t1 :
    isPending id t0 -> isAssigned id t1 ->
    EmailRun C w id
      [StoreActiveTask t0; ConsultOptimizer (optimizerCalls w);
       GenerateAssignment (task_description t0); StoreActiveTask t1]
      (MemoryService.putTask t1 (MemoryService.putTask t0 (store w)))
| run_recorded t0 t1 d sent :
    isPending id t0 -> isAssigned id t1 -> isDecisionOf C w id t1 d ->
    isDispatchOf id sent ->
    EmailRun C w id
      ([StoreActiveTask t0; ConsultOptimizer (optimizerCalls w);
        GenerateAssignment (task_description t0); StoreActiveTask t1;
        StoreDecision d] ++ from_option (fun ev => [InvokeEmailSender ev]) [] sent)
      (MemoryService.putDecision d
         (MemoryService.putTask t1 (MemoryService.putTask t0 (store w)))).

(** ** The e-mail receiver Lambda *)

Module EmailReceiver.

(** One record of an SES event, with the fields the test set-up fills in
    ([createMockSESEvent]). *)
Record SESEventRecord : Type := mkSESEventRecord {
  mail_messageId : string;
  mail_source : string;
  mail_destination : list string;
  header_subject : string;
  header_from : list string;
  header_to : list string;
  receipt_timestamp : string;
  receipt_recipients : list string
}.

Record SESEvent : Type := mkSESEvent {
  Records : list SESEventRecord
}.

(** What the receiver reaches outside its own file: the two static helpers
    of [SESService] (imported from [@/lib/ses], not among the sources), which
    may throw, and its Lambda client. *)
Record ReceiverCollaborators : Type := mkReceiverCollaborators {
  parseEmailEvent : SESEventRecord -> Outcome EmailData;
  extractTaskRequest : string -> string -> Outcome TaskRequest;
  orchestratorAccepts : OrchestratorEvent -> bool
}.

(** The state of a receiver run: the shared world and the invocations of the
    orchestrator issued so far, oldest first. *)
Record Inbox : Type := mkInbox {
  inbox_world : World;
  inbox_invoked : list OrchestratorEvent
}.

Definition R (A : Type) : Type := Inbox -> Inbox * Outcome A.

Definition retR {A} (a : A) : R A := fun st => (st, Resolved a).

Definition throwR {A} (e : JsError) : R A := fun st => (st, Rejected e).

Definition bindR {A B} (m : R A) (k : A -> R B) : R B :=
  fun st =>
    match m st with
    | (st', Resolved a) => k a st'
    | (st', Rejected e) => (st', Rejected e)
    end.

Definition tryCatchR {A} (m : R A) (h : JsError -> R A) : R A :=
  fun st =>
    match m st with
    | (st', Resolved a) => (st', Resolved a)
    | (st', Rejected e) => h e st'
    end.

Definition awaitR {A} (o : Outcome A) : R A := fun st => (st, o).

(** A computation on the shared world, run inside the receiver. *)
Definition liftM {A} (m : M A) : R A :=
  fun st =>
    match m (inbox_world st) with
    | (w', o) => (mkInbox w' (inbox_invoked st), o)
    end.

Section Handlers.
Variable C : Collaborators.
Variable RC : ReceiverCollaborators.

(** [lambdaClient.send(new InvokeCommand(...))] with invocation type
    [Event], rethrowing a failure. *)
Definition invokeOrchestrator (event : OrchestratorEvent) : R unit :=
  tryCatchR
    (fun st =>
       (mkInbox (inbox_world st) (inbox_invoked st ++ [event]),
        if orchestratorAccepts RC event then Resolved tt
        else Rejected (newError "Lambda invocation failed")))
    (fun error => throwR error).

Definition processEmailRecord (record : SESEventRecord) : R unit :=
  bindR (awaitR (parseEmailEvent RC record)) (fun emailData =>
  let message :=
    mkMessage (email_messageId emailData) (email_from emailData)
      (head (email_to emailData)) (email_subject emailData) ""
      (email_timestamp emailData) incoming in
  bindR (liftM (MemoryService.storeMessage C message)) (fun _ =>
  bindR (awaitR (extractTaskRequest RC (email_subject emailData) ""))
    (fun taskRequest =>
  let orchestratorEvent :=
    mkOrchestratorEvent "email_received"
      (Some (mkEventData emailData taskRequest message)) "email-receiver" in
  invokeOrchestrator orchestratorEvent))).

(** [for (const record of event.Records) await processEmailRecord(record)] *)
Fixpoint processRecords (records : list SESEventRecord) : R unit :=
  match records with
  | [] => retR tt
  | record :: rest =>
      bindR (processEmailRecord record) (fun _ => processRecords rest)
  end.

Definition handler (event : SESEvent) : R Response :=
  tryCatchR
    (bindR (processRecords (Records event)) (fun _ =>
       retR (mkResponse 200 (BodyMessage "Emails processed successfully"))))
    (fun error =>
       retR (mkResponse 500 (BodyError "Failed to process emails"))).
End Handlers.

End EmailReceiver.

(** The messages a trace stores, oldest first. *)
Definition storedMessages (tr : list Effect) : list Message :=
  omap (fun x => match x with StoreMessage m => Some m | _ => None end) tr.

(** The consultations of the scheduler in a trace, by attempt number. *)
Definition consultations (tr : list Effect) : list nat :=
  omap (fun x => match x with ConsultOptimizer n => Some n | _ => None end) tr.

(** The Task writes and the Decision writes of a trace, oldest first. *)
Definition taskWrites (tr : list Effect) : list Task :=
  omap (fun x => match x with StoreActiveTask t => Some t | _ => None end) tr.

Definition decisionWrites (tr : list Effect) : list Decision :=
  omap (fun x => match x with StoreDecision d => Some d | _ => None end) tr.

(** The message the receiver stores for a parsed e-mail. *)
Definition incomingMessage (emailData : EmailData) : Message :=
  mkMessage (email_messageId emailData) (email_from emailData)
    (head (email_to emailData)) (email_subject emailData) ""
    (email_timestamp emailData) incoming.

(** The event the receiver builds for a record: the parsed e-mail, the task
    request extracted from its subject and an empty body, and the incoming
    message. *)
Definition eventFor (RC : EmailReceiver.ReceiverCollaborators)
    (record : EmailReceiver.SESEventRecord) : Outcome OrchestratorEvent :=
  match EmailReceiver.parseEmailEvent RC record with
  | Resolved emailData =>
      match EmailReceiver.extractTaskRequest RC (email_subject emailData) "" with
      | Resolved taskRequest =>
          Resolved
            (mkOrchestratorEvent "email_received"
               (Some (mkEventData emailData taskRequest
                        (incomingMessage emailData)))
               "email-receiver")
      | Rejected e => Rejected e
      end
  | Rejected e => Rejected e
  end.

(** The message an orchestrator event carries. *)
Definition eventMessage (ev : OrchestratorEvent) : option Message :=
  data_message <$> event_data ev.

(** What a receiver run added to the trace and to the invocations. *)
Definition newlyStored (st st' : EmailReceiver.Inbox) : list Message :=
  storedMessages
    (drop (length (trace (EmailReceiver.inbox_world st)))
       (trace (EmailReceiver.inbox_world st'))).

Definition newlyInvoked (st st' : EmailReceiver.Inbox) : list OrchestratorEvent :=
  drop (length (EmailReceiver.inbox_invoked st)) (EmailReceiver.inbox_invoked st').

(** Every stored Task id is one of the ids drawn so far. *)
Definition drawnIds (C : Collaborators) (w : World) : Prop :=
  forall id, is_Some (store_tasks (store w) !! id) ->
    exists k, k < uuidCalls w /\ id = uuidv4_nth C k.

(** A sequence of inbound events handled one after the other. *)
Fixpoint handleAll (C : Collaborators) (events : list OrchestratorEvent)
    (w : World) : World :=
  match events with
  | [] => w
  | e :: rest => handleAll C rest (Orchestrator.handler C e w).1
  end.

(** The two answers of the receiver's handler. *)
Definition processed : Outcome Response :=
  Resolved (mkResponse 200 (BodyMessage "Emails processed successfully")).

Definition notProcessed : Outcome Response :=
  Resolved (mkResponse 500 (BodyError "Failed to process emails")).

(** The message the sender stores after a send. *)
Definition sentMessage (C : Collaborators) (w : World)
    (mail : OutgoingEmail) : Message :=
  mkMessage (uuidv4_nth C (uuidCalls w)) ("louie@" +:+ emailDomain C)
    (head (out_to mail)) (out_subject mail) (out_body mail)
    (isoTime_nth C (dateCalls w)) outgoing.

(** ** Sample records for the receiver *)

Module Fixture.

(** A parser that reads the fields of the record and refuses a record
    without a sender. *)
Definition parse (r : EmailReceiver.SESEventRecord) : Outcome EmailData :=
  if String.eqb (EmailReceiver.mail_source r) "" then
    Rejected (newError "no sender")
  else
    Resolved
      (mkEmailData (EmailReceiver.mail_messageId r)
         (EmailReceiver.mail_source r) (EmailReceiver.mail_destination r)
         (EmailReceiver.header_subject r) (EmailReceiver.receipt_timestamp r)).

Definition extract (subject body : string) : Outcome TaskRequest :=
  Resolved (mkTaskRequest subject None [] None).

Definition receiver : EmailReceiver.ReceiverCollaborators :=
  EmailReceiver.mkReceiverCollaborators parse extract (fun _ => true).

Definition record (id from : string) : EmailReceiver.SESEventRecord :=
  EmailReceiver.mkSESEventRecord id from ["louie@depalma.work"]
    "Need someone for API documentation" [from] ["louie@depalma.work"]
    "2025-03-10T08:59:00Z" ["louie@depalma.work"].

(** Three records, the second without a sender. *)
Definition batch : EmailReceiver.SESEvent :=
  EmailReceiver.mkSESEvent
    [record "msg-1" "boss@team.com"; record "msg-2" "";
     record "msg-3" "ann@team.com"].

Definition goodBatch : EmailReceiver.SESEvent :=
  EmailReceiver.mkSESEvent
    [record "msg-1" "boss@team.com"; record "msg-3" "ann@team.com"].

Definition emptyInbox : EmailReceiver.Inbox :=
  EmailReceiver.mkInbox initialWorld [].

(** An id generator that never repeats: the n-th id is n strokes. *)
Fixpoint tally (n : nat) : string :=
  match n with
  | 0 => ""
  | S k => "x" +:+ tally k
  end.

Definition counting : Collaborators :=
  mkCollaborators tally Sample.times (fun _ _ => true) (fun _ => true)
    (fun _ => "stats") Orchestrator.getTeamDataFromSheets
    (fun _ => Orchestrator.getSchedulerRecommendation)
    Sample.followPrimary (fun _ => true) (fun _ => true) "depalma.work".

End Fixture.

(** * Proofs *)

Arguments MemoryService.putTask : simpl never.
Arguments MemoryService.putDecision : simpl never.
Arguments MemoryService.putMessage : simpl never.
Arguments MemoryService.activeTasks : simpl never.

Ltac unfold_js :=
  unfold Orchestrator.handler, Orchestrator.route,
    Orchestrator.handleEmailReceived, Orchestrator.handleManualTask,
    Orchestrator.handleHealthCheck, Orchestrator.sendAssignmentEmail,
    Orchestrator.lambdaInvoke, Orchestrator.awaitGenerateAssignment,
    Orchestrator.awaitSchedulerRecommendation, Orchestrator.awaitTeamData,
    EmailSender.handler, EmailSender.route, EmailSender.sendAssignmentEmail,
    EmailSender.sendNotificationEmail, EmailSender.sesSend,
    MemoryService.buildMemoryContext, MemoryService.storeActiveTask,
    MemoryService.storeDecision, MemoryService.storeMessage,
    MemoryService.getMemoryStats, MemoryService.request,
    uuidv4, newDateISO, emit, setStore, getStore, await, tryCatch, bind, ret,
    throw in *.

(** Enumerate the positions of a trace of known length. *)
Ltac positions i :=
  do 7 (try (destruct i as [|i]; simplify_eq/=; try lia)).

(** Case analysis on membership in a trace of known length. *)
Ltac members H :=
  repeat (apply elem_of_cons in H; destruct H as [H|H]; [simplify_eq|]);
  try (apply elem_of_nil in H; contradiction).

(** Case analysis on the next answer of a collaborator. *)
Ltac ask :=
  cbn;
  match goal with
  | |- context [memoryAccepts ?C ?s ?op] =>
      destruct (memoryAccepts C s op) eqn:?
  | |- context [sesAccepts ?C ?c] => destruct (sesAccepts C c) eqn:?
  | |- context [lambdaAccepts ?C ?c] => destruct (lambdaAccepts C c) eqn:?
  end.

(** ** Runs of the orchestrator *)

(** Every run of the orchestrator ends at one of the stages of [EmailRun]. *)
Lemma handler_run C e w :
  EmailRun C w (uuidv4_nth C (uuidCalls w))
    (runTrace (Orchestrator.handler C e) w)
    (store (Orchestrator.handler C e w).1).
Proof.
  unfold runTrace. unfold_js. cbn.
  repeat (case_match; cbn in *; simplify_eq).
  all: rewrite <- ?app_assoc, ?drop_app_length, ?drop_all.
  all: cbn.
  all: lazymatch goal with
       | |- EmailRun _ _ _ [StoreActiveTask ?t0; _; _; StoreActiveTask ?t1;
                             StoreDecision ?d; InvokeEmailSender ?ev] _ =>
           refine (run_recorded _ _ _ t0 t1 d (Some ev) _ _ _ _)
       | |- EmailRun _ _ _ [StoreActiveTask ?t0; _; _; StoreActiveTask ?t1;
                             StoreDecision ?d] _ =>
           refine (run_recorded _ _ _ t0 t1 d None _ _ _ _)
       | _ => constructor
       end.
  all: try (repeat split; reflexivity).
  all: try (split; [reflexivity | split; [eauto | split; [|reflexivity]]];
            do 5 eexists; split; [eassumption | split; reflexivity]).
  all: intros ev [= <-]; split; reflexivity.
Qed.

(** A run only appends to the trace. *)
Lemma handler_trace C e w :
  trace (Orchestrator.handler C e w).1 =
  trace w ++ runTrace (Orchestrator.handler C e) w.
Proof.
  symmetry. unfold runTrace.
  assert (exists tr, trace (Orchestrator.handler C e w).1 = trace w ++ tr)
    as [tr ->].
  { unfold_js. cbn.
    repeat (case_match; cbn in *; simplify_eq).
    all: rewrite <- ?app_assoc; eexists; try reflexivity.
    all: symmetry; apply app_nil_r. }
  by rewrite drop_app_length.
Qed.

(** The Decisions a run records. *)
Lemma recorded_decision C e w d :
  StoreDecision d ∈ runTrace (Orchestrator.handler C e) w ->
  exists t1, isDecisionOf C w (uuidv4_nth C (uuidCalls w)) t1 d.
Proof.
  intros Hin. pose proof (handler_run C e w) as R.
  inversion R as [ Htr | t0 P0 Htr | t0 P0 Htr | t0 P0 Htr | t0 t1 P0 P1 Htr
                 | t0 t1 d' sent P0 P1 Hd Hs Htr ];
    rewrite <- Htr in Hin; try destruct sent; cbn in Hin; members Hin;
    eauto.
Qed.

(** No run consults the scheduler more than once. *)
Lemma handler_consults_once C e w :
  optimizerCalls (Orchestrator.handler C e w).1 <= S (optimizerCalls w).
Proof.
  unfold_js. cbn.
  repeat (case_match; cbn in *; simplify_eq); cbn; lia.
Qed.

(** ** What [||] does with a confidence *)




(** The placeholder scheduler always answers with confidence 0.85. *)
Lemma source_scheduler_confidence task teamData r :
  Orchestrator.getSchedulerRecommendation task teamData = Resolved r ->
  Orchestrator.decisionConfidence r = 0.85%float.
Proof.
  unfold Orchestrator.getSchedulerRecommendation.
  destruct teamData; intros [= <-]; reflexivity.
Qed.

(** A name that no roster entry bears has no e-mail address. *)
Lemma find_no_member name teamData :
  (forall m, m ∈ teamData -> member_name m <> name) ->
  Orchestrator.findTeamMemberEmail name teamData = None.
Proof.
  unfold Orchestrator.findTeamMemberEmail. intros H.
  induction teamData as [|m l IH]; [done|]. cbn.
  destruct (String.eqb_spec (member_name m) name) as [Heq|_].
  - exfalso. apply (H m); [apply list_elem_of_here | exact Heq].
  - apply IH. intros m' Hin. apply H. by apply list_elem_of_further.
Qed.

(** ** Runs of the e-mail sender *)

Lemma sender_trace C ev w :
  sender_type ev = "assignment_email" ->
  exists rest,
    trace (EmailSender.handler C ev w).1 =
    trace w ++ SesSend (assignmentCall ev) :: rest /\
    sesSends rest = [].
Proof.
  intros Hty. unfold assignmentCall. unfold_js. rewrite Hty.
  repeat ask; cbn; rewrite <- ?app_assoc; eexists; split; reflexivity.
Qed.

Lemma sender_sends_once C ev w :
  sender_type ev = "assignment_email" ->
  sesSends (trace (EmailSender.handler C ev w).1) =
  sesSends (trace w) ++ [assignmentCall ev].
Proof.
  intros Hty. destruct (sender_trace C ev w Hty) as (rest & -> & Hrest).
  unfold sesSends in *. rewrite omap_app. cbn. by rewrite Hrest.
Qed.

(** ** The sliding window *)

Section HotWindow.
Import MemoryService.
Variable n : nat.

Lemma slide_snoc (l : list Message) (m : Message) :
  slide n (slide n l ++ [m]) = slide n (l ++ [m]).
Proof.
  unfold slide. rewrite !length_app, length_drop. cbn.
  destruct (decide (length l <= n)) as [Hle|Hgt].
  - replace (length l - n) with 0 by lia. rewrite drop_0.
    by replace (length l - 0) with (length l) by lia.
  - replace (length l - (length l - n) + 1 - n) with 1 by lia.
    destruct (decide (n = 0)) as [->|Hn].
    + rewrite !drop_ge; [done|rewrite length_app; cbn; lia|].
      rewrite length_app, length_drop; cbn; lia.
    + rewrite !drop_app_le by (rewrite ?length_drop; lia).
      rewrite drop_drop. f_equal. f_equal. lia.
Qed.

Lemma putMessages_snoc ms m s :
  putMessages n (ms ++ [m]) s = putMessage n m (putMessages n ms s).
Proof. unfold putMessages. by rewrite foldl_app. Qed.

Lemma putMessages_window ms s :
  ms <> [] ->
  hotMessages (putMessages n ms s) = slide n (store_messages s ++ ms).
Proof.
  induction ms as [|m ms IH] using rev_ind; [done|]. intros _.
  rewrite putMessages_snoc. unfold hotMessages, putMessage in *.
  cbn [store_messages].
  destruct (decide (ms = [])) as [->|Hne]; [reflexivity|].
  by rewrite IH, slide_snoc, app_assoc.
Qed.
End HotWindow.

(** Storing through the service is storing in the store, when the memory
    service accepts every request. *)
Lemma storeMessages_run C ms w :
  (forall s op, memoryAccepts C s op = true) ->
  exists w', MemoryService.storeMessages C ms w = (w', Resolved tt) /\
    store w' = MemoryService.putMessages MemoryService.HOT_WINDOW ms (store w).
Proof.
  intros Hmem. revert w. induction ms as [|m ms IH]; intros w.
  - exists w. split; reflexivity.
  - cbn [MemoryService.storeMessages]. unfold bind at 1.
    unfold MemoryService.storeMessage at 1. unfold_js. rewrite Hmem. cbn.
    match goal with |- context [MemoryService.storeMessages C ms ?w1] =>
      destruct (IH w1) as (w' & -> & Hst) end.
    exists w'. split; [reflexivity|]. rewrite Hst. reflexivity.
Qed.

(** ** The claims *)

(** C1, as stated, fails: the same inbound event (same Message id) handled
    twice leaves two Tasks, two Decisions and two queued notifications, and
    the second call answers with a new Task, not with the existing one. *)
Lemma C1_counterexample :
  let e := Sample.request ["docs"] in
  let r1 := Orchestrator.handler Sample.reliable e initialWorld in
  let r2 := Orchestrator.handler Sample.reliable e r1.1 in
  size (store_tasks (store r1.1)) = 1 /\
  size (store_tasks (store r2.1)) = 2 /\
  task_id <$> responseTask r1.2 = Some "task-0" /\
  task_id <$> responseTask r2.2 = Some "task-1" /\
  length (store_decisions (store r2.1)) = 2 /\
  length (invocations (trace r2.1)) = 2.
Proof. vm_compute. repeat split. Qed.

(** C1, amended. The handler never reads the Message id: when the memory
    service accepts the writes and [uuidv4] draws an unused id, every call
    for an [email_received] event stores one more Task under that id, and
    two events that agree on the task request and the sender are handled
    identically whatever their Message ids. *)
Theorem C1_every_call_creates_a_task C e d w :
  event_type e = "email_received" -> event_data e = Some d ->
  (forall s op, memoryAccepts C s op = true) ->
  store_tasks (store w) !! uuidv4_nth C (uuidCalls w) = None ->
  let w' := (Orchestrator.handler C e w).1 in
  (exists t, store_tasks (store w') !! uuidv4_nth C (uuidCalls w) = Some t /\
     task_description t = request_description (data_taskRequest d)) /\
  size (store_tasks (store w')) = S (size (store_tasks (store w))) /\
  (forall e2 d2, event_type e2 = "email_received" -> event_data e2 = Some d2 ->
     data_taskRequest d2 = data_taskRequest d ->
     email_from (data_email d2) = email_from (data_email d) ->
     Orchestrator.handler C e2 w = Orchestrator.handler C e w).
Proof.
  intros Hty Hd Hmem Hfresh w'. subst w'. split; [|split].
  - unfold_js. rewrite Hty, Hd. cbn. rewrite !Hmem. cbn.
    repeat (case_match; cbn in *; simplify_eq);
      unfold MemoryService.putDecision, MemoryService.putTask; cbn;
      rewrite ?Hmem in *; simplify_eq;
      rewrite ?lookup_insert_eq; eauto.
  - unfold_js. rewrite Hty, Hd. cbn. rewrite !Hmem. cbn.
    repeat (case_match; cbn in *; simplify_eq);
      unfold MemoryService.putDecision, MemoryService.putTask; cbn;
      rewrite ?Hmem in *; simplify_eq;
      rewrite ?insert_insert_eq; by rewrite map_size_insert_None.
  - intros e2 d2 Hty2 Hd2 Hreq Hfrom. unfold_js.
    rewrite Hty, Hty2, Hd, Hd2, Hreq, Hfrom. reflexivity.
Qed.

Lemma C1_witness :
  store_tasks (store initialWorld) !! uuidv4_nth Sample.reliable 0 = None /\
  size (store_tasks
          (store (Orchestrator.handler Sample.reliable (Sample.request ["docs"])
                    initialWorld).1)) = 1.
Proof.
  split; [reflexivity|].
  refine (proj1 (proj2
    (C1_every_call_creates_a_task Sample.reliable (Sample.request ["docs"])
       _ initialWorld eq_refl eq_refl (fun _ _ => eq_refl) eq_refl))).
Defined.

(** C2, as stated, fails: for a request whose required capability no
    roster member holds, the run records a Decision that names a roster
    member with confidence 0.85 and queues an assignment e-mail to them. *)
Lemma C2_counterexample :
  let run :=
    Orchestrator.handler Sample.reliable (Sample.request ["quantum"])
      initialWorld in
  teamDataFromSheets Sample.reliable = Resolved Sample.roster /\
  noCandidateSatisfies ["quantum"] Sample.roster = true /\
  store_decisions (store run.1) = [Sample.decision0] /\
  decision_assignedTo Sample.decision0 = "Alex" /\
  PrimFloat.eqb (decision_confidence Sample.decision0) 0 = false /\
  invocations (trace run.1) =
    [mkEmailSenderEvent "assignment_email"
       (mkOutgoingEmail ["alex@team.com"; "boss@team.com"]
          "Task Assignment - API documentation" "You are on it.")
       "task-0"].
Proof. vm_compute. repeat split. Qed.

(** C2, amended. With the roster and the scheduler of the source, the
    orchestrator makes no capability check: whatever the Task requires,
    every Decision a run records has confidence 0.85 (never 0) and names the
    assignee returned by the text generator, and every notification a run
    dispatches is an assignment e-mail. *)
Theorem C2_no_capability_check C e w :
  let C' := Orchestrator.withSourceStubs C in
  let tr := runTrace (Orchestrator.handler C' e) w in
  (forall d, StoreDecision d ∈ tr ->
     decision_confidence d = 0.85%float /\
     PrimFloat.eqb (decision_confidence d) 0 = false /\
     exists description teamData r ctx ad,
       generateAssignment C description teamData r ctx = Resolved ad /\
       decision_assignedTo d = ad_assignee ad) /\
  (forall ev, InvokeEmailSender ev ∈ tr ->
     sender_type ev = "assignment_email").
Proof.
  intros C' tr. split.
  - intros d Hin.
    destruct (recorded_decision C' e w d Hin)
      as (t1 & _ & (task & teamData & r & Hr & Hc) &
          (desc & team & r' & ctx & ad & Had & Hto & _) & _).
    cbn in Hr. apply source_scheduler_confidence in Hr.
    rewrite Hc, Hr. repeat split.
    exists desc, team, r', ctx, ad. split; [exact Had | exact Hto].
  - intros ev Hin. pose proof (handler_run C' e w) as R. fold tr in R.
    inversion R as [ Htr | t0 P0 Htr | t0 P0 Htr | t0 P0 Htr | t0 t1 P0 P1 Htr
                   | t0 t1 d' sent P0 P1 Hd Hs Htr ];
      rewrite <- Htr in Hin; try destruct sent as [ev'|]; cbn in Hin;
      members Hin.
    by destruct (Hs ev' eq_refl).
Qed.

Lemma C2_witness :
  StoreDecision Sample.decision0 ∈
    runTrace
      (Orchestrator.handler (Orchestrator.withSourceStubs Sample.reliable)
         (Sample.request ["quantum"])) initialWorld /\
  decision_confidence Sample.decision0 = 0.85%float.
Proof.
  assert (StoreDecision Sample.decision0 ∈
            runTrace
              (Orchestrator.handler (Orchestrator.withSourceStubs Sample.reliable)
                 (Sample.request ["quantum"])) initialWorld) as Hin.
  { vm_compute. do 4 apply list_elem_of_further. apply list_elem_of_here. }
  split; [exact Hin|].
  exact (proj1 (proj1 (C2_no_capability_check Sample.reliable
                         (Sample.request ["quantum"]) initialWorld) _ Hin)).
Defined.

(** C3. In every run of the orchestrator, every dispatch to the e-mail
    sender comes after the append of the Decision of the same Task, and every
    Decision append comes after the write that sets that Task to [assigned],
    itself after the write that created it as [pending]: status change, then
    Decision, then dispatch. *)
Theorem C3_status_then_decision_then_dispatch C e w :
  let tr := runTrace (Orchestrator.handler C e) w in
  trace (Orchestrator.handler C e w).1 = trace w ++ tr /\
  (forall i ev, tr !! i = Some (InvokeEmailSender ev) ->
     exists j d, j < i /\ tr !! j = Some (StoreDecision d) /\
       decision_taskId d = sender_taskId ev /\
       d ∈ store_decisions (store (Orchestrator.handler C e w).1)) /\
  (forall j d, tr !! j = Some (StoreDecision d) ->
     exists k t k0 t0, k0 < k < j /\
       tr !! k = Some (StoreActiveTask t) /\
       task_status t = assigned /\ task_id t = decision_taskId d /\
       tr !! k0 = Some (StoreActiveTask t0) /\
       task_status t0 = pending /\ task_id t0 = task_id t).
Proof.
  intros tr. split; [apply handler_trace|].
  pose proof (handler_run C e w) as R. subst tr.
  inversion R as [ | t0 P0 | t0 P0 | t0 P0 | t0 t1 P0 P1
                 | t0 t1 d sent (I0 & S0 & _) (I1 & S1) (Hd & _) Hs Htr Hst ];
    try destruct sent as [ev|]; split; intros i x Hi; positions i.
  - destruct (Hs x eq_refl) as [Hid _].
    exists 4, d. repeat split; [lia|congruence|].
    unfold MemoryService.putDecision; cbn. set_solver.
  - exists 3, t1, 0, t0. repeat split; try lia; congruence.
  - exists 3, t1, 0, t0. repeat split; try lia; congruence.
Qed.

Lemma C3_witness :
  runTrace (Orchestrator.handler Sample.reliable (Sample.request ["docs"]))
    initialWorld !! 4 = Some (StoreDecision Sample.decision0) /\
  exists k t k0 t0, k0 < k < 4 /\
    runTrace (Orchestrator.handler Sample.reliable (Sample.request ["docs"]))
      initialWorld !! k = Some (StoreActiveTask t) /\
    task_status t = assigned /\ task_id t = "task-0" /\
    runTrace (Orchestrator.handler Sample.reliable (Sample.request ["docs"]))
      initialWorld !! k0 = Some (StoreActiveTask t0) /\
    task_status t0 = pending /\ task_id t0 = task_id t.
Proof.
  split; [reflexivity|].
  exact (proj2 (proj2 (C3_status_then_decision_then_dispatch Sample.reliable
                         (Sample.request ["docs"]) initialWorld))
           4 Sample.decision0 eq_refl).
Defined.

(** C4, as stated, fails: the same assignment event delivered twice to
    the e-mail sender, the first delivery answered with status 200, issues
    the same request to the mail transport twice and stores two outgoing
    Messages. *)
Lemma C4_counterexample :
  let C := Sample.reliable in
  let ev := Sample.assignmentMail in
  let first := EmailSender.handler C ev initialWorld in
  let second := EmailSender.handler C ev first.1 in
  statusCode <$> resolved first.2 = Some 200 /\
  sesSends (trace first.1) = [assignmentCall ev] /\
  sesSends (trace second.1) = [assignmentCall ev; assignmentCall ev] /\
  msg_id <$> store_messages (store second.1) = ["task-0"; "task-1"].
Proof. vm_compute. repeat split. Qed.

(** C4, amended. Dispatch is not idempotent: every delivery of an
    assignment event to the e-mail sender issues one request to the mail
    transport, whatever was sent before, so [n] deliveries of the same event
    issue [n] identical requests. *)
Theorem C4_every_delivery_sends C ev n w :
  sender_type ev = "assignment_email" ->
  sesSends (trace (deliver C ev n w)) =
  sesSends (trace w) ++ replicate n (assignmentCall ev).
Proof.
  intros Hty. revert w. induction n as [|n IH]; intros w; cbn.
  - by rewrite app_nil_r.
  - rewrite IH, sender_sends_once by exact Hty.
    by rewrite <- app_assoc.
Qed.

Lemma C4_witness :
  sender_type Sample.assignmentMail = "assignment_email" /\
  sesSends (trace (deliver Sample.reliable Sample.assignmentMail 3 initialWorld)) =
  sesSends (trace initialWorld) ++
  replicate 3 (assignmentCall Sample.assignmentMail).
Proof.
  split; [reflexivity|].
  exact (C4_every_delivery_sends Sample.reliable Sample.assignmentMail 3
           initialWorld eq_refl).
Defined.

(** C6, as stated, fails: for an event of an unknown type the [switch]
    throws a plain [Error], not a validation error, and the handler does not
    fail at all: its [catch] turns the error into the 500 response. *)
Lemma C6_counterexample :
  let r := Orchestrator.route Sample.reliable Sample.unknownEvent initialWorld in
  let h := Orchestrator.handler Sample.reliable Sample.unknownEvent initialWorld in
  r.2 = Rejected (mkJsError "Error" "Unknown event type: calendar_sync") /\
  (forall msg, r.2 <> Rejected (mkJsError "ValidationError" msg)) /\
  h.2 = internalServerError /\
  (forall e, h.2 <> Rejected e).
Proof. vm_compute. repeat split; intros; discriminate. Qed.

(** C6, amended. For an event whose type matches no handler, or an
    [email_received] event without a payload, the handler resolves with the
    500 "Internal server error" response and leaves the world as it was: no
    Task is created, no collaborator is contacted, nothing is retried.  For
    an unknown type the error thrown inside is
    [Error("Unknown event type: ...")]. *)
Theorem C6_unknown_event_is_answered_500 C e w :
  unrecognized e \/ (event_type e = "email_received" /\ event_data e = None) ->
  Orchestrator.handler C e w = (w, internalServerError) /\
  (unrecognized e ->
   Orchestrator.route C e w =
   (w, Rejected (newError ("Unknown event type: " +:+ event_type e)))).
Proof.
  intros H. split.
  - destruct H as [(H1 & H2 & H3)|[Hty Hd]]; unfold_js.
    + apply String.eqb_neq in H1, H2, H3. by rewrite H1, H2, H3.
    + by rewrite Hty, Hd.
  - intros (H1 & H2 & H3). unfold_js.
    apply String.eqb_neq in H1, H2, H3. by rewrite H1, H2, H3.
Qed.

Lemma C6_witness :
  unrecognized Sample.unknownEvent /\
  Orchestrator.handler Sample.reliable Sample.unknownEvent initialWorld =
  (initialWorld, internalServerError).
Proof.
  assert (unrecognized Sample.unknownEvent) as Hun
    by (repeat split; discriminate).
  split; [exact Hun|].
  exact (proj1 (C6_unknown_event_is_answered_500 Sample.reliable
                  Sample.unknownEvent initialWorld (or_introl Hun))).
Defined.

(** C7. A run of the orchestrator that draws a fresh Task id leaves every
    Task already stored where it was in the lifecycle
    [pending -> assigned -> (completed | cancelled)], writes its own Task
    first as [pending] and only later as [assigned], and the e-mail sender
    never touches a Task: no status moves backward. *)
Theorem C7_status_moves_forward C e w :
  store_tasks (store w) !! uuidv4_nth C (uuidCalls w) = None ->
  let w' := (Orchestrator.handler C e w).1 in
  let tr := runTrace (Orchestrator.handler C e) w in
  (forall id t, store_tasks (store w) !! id = Some t ->
     exists t', store_tasks (store w') !! id = Some t' /\
       forward (task_status t) (task_status t')) /\
  (forall i j t t', i < j -> tr !! i = Some (StoreActiveTask t) ->
     tr !! j = Some (StoreActiveTask t') ->
     task_id t = task_id t' /\ forward (task_status t) (task_status t')) /\
  (forall ev,
     store_tasks (store (EmailSender.handler C ev w).1) = store_tasks (store w)).
Proof.
  intros Hfresh w' tr. subst w' tr. split; [|split].
  - intros id t Hin. exists t. split; [|apply rtc_refl].
    assert (id <> uuidv4_nth C (uuidCalls w)) as Hne by congruence.
    pose proof (handler_run C e w) as R.
    inversion R as [ | t0 (I0 & _) | t0 (I0 & _) | t0 (I0 & _)
                   | t0 t1 (I0 & _) (I1 & _)
                   | t0 t1 d sent (I0 & _) (I1 & _) _ _ ];
      unfold MemoryService.putDecision, MemoryService.putTask; cbn;
      rewrite ?lookup_insert_ne by congruence; done.
  - intros i j t t' Hij Hi Hj.
    pose proof (handler_run C e w) as R.
    inversion R as [ Htr | t0 P0 Htr | t0 P0 Htr | t0 P0 Htr
                   | t0 t1 (I0 & S0 & _) (I1 & S1) Htr
                   | t0 t1 d sent (I0 & S0 & _) (I1 & S1) _ _ Htr ];
      rewrite <- Htr in *; clear R Htr; try destruct sent.
    all: positions i; positions j.
    all: split; [congruence|]; rewrite S0, S1; apply rtc_once; constructor.
  - intros ev. unfold_js. cbn.
    repeat (case_match; cbn in *; simplify_eq); reflexivity.
Qed.

Lemma C7_witness :
  store_tasks (store initialWorld) !! uuidv4_nth Sample.reliable 0 = None /\
  forall i j t t', i < j ->
    runTrace (Orchestrator.handler Sample.reliable (Sample.request ["docs"]))
      initialWorld !! i = Some (StoreActiveTask t) ->
    runTrace (Orchestrator.handler Sample.reliable (Sample.request ["docs"]))
      initialWorld !! j = Some (StoreActiveTask t') ->
    task_id t = task_id t' /\ forward (task_status t) (task_status t').
Proof.
  split; [reflexivity|].
  exact (proj1 (proj2 (C7_status_moves_forward Sample.reliable
                         (Sample.request ["docs"]) initialWorld eq_refl))).
Defined.

(** C8. After more than [n] messages have been stored, whatever their
    correspondents, contents, types and claimed timestamps, the Hot-tier
    window holds exactly the [n] most recently stored ones, in store order.
    The service stores with the default window size 20, and the memory
    context built after the stores carries that window. *)
Theorem C8_hot_window_keeps_last_n (n : nat) (ms : list Message) (s : Store) :
  n < length ms ->
  let hot := MemoryService.hotMessages (MemoryService.putMessages n ms s) in
  hot = drop (length ms - n) ms /\ length hot = n /\
  MemoryService.HOT_WINDOW = 20 /\
  (forall C w, (forall s' op, memoryAccepts C s' op = true) -> store w = s ->
     n = MemoryService.HOT_WINDOW ->
     ctx_recentMessages <$>
       resolved ((MemoryService.storeMessages C ms ;;;
                  MemoryService.buildMemoryContext C) w).2 = Some hot).
Proof.
  intros Hlen hot. subst hot.
  rewrite putMessages_window by (intros ->; cbn in Hlen; lia).
  unfold MemoryService.slide at 1 2. rewrite length_app.
  rewrite drop_app_ge by lia.
  replace (length (store_messages s) + length ms - n - length (store_messages s))
    with (length ms - n) by lia.
  repeat split; [rewrite length_drop; lia|].
  intros C w Hmem <- ->.
  rewrite <- putMessages_window by (intros ->; cbn in Hlen; lia).
  unfold bind. destruct (storeMessages_run C ms w Hmem) as (w' & -> & Hst).
  unfold_js. rewrite Hmem. cbn. by rewrite Hst.
Qed.

Lemma C8_witness :
  2 < length Sample.stored /\
  MemoryService.hotMessages (MemoryService.putMessages 2 Sample.stored emptyStore) =
  drop 1 Sample.stored.
Proof.
  split; [vm_compute; lia|].
  refine (proj1 (C8_hot_window_keeps_last_n 2 Sample.stored emptyStore _)).
  vm_compute; lia.
Defined.



(** C10. When the memory service, the roster, the scheduler and the text
    generator all answer and the assignee named by the text generator is the
    name of no roster entry, the run stores the Task with status [assigned],
    appends a Decision for it, queues no invocation of the e-mail sender and
    resolves with the 200 response "Task assigned successfully". *)
Theorem C10_unknown_assignee_is_silent C e d w teamData r ad :
  event_type e = "email_received" -> event_data e = Some d ->
  (forall s op, memoryAccepts C s op = true) ->
  teamDataFromSheets C = Resolved teamData ->
  (forall task,
     schedulerRecommendation C (optimizerCalls w) task teamData = Resolved r) ->
  (forall ctx,
     generateAssignment C (request_description (data_taskRequest d)) teamData
       r ctx = Resolved ad) ->
  (forall m, m ∈ teamData -> member_name m <> ad_assignee ad) ->
  let id := uuidv4_nth C (uuidCalls w) in
  let run := Orchestrator.handler C e w in
  exists t dec,
    run.2 = Resolved (mkResponse 200
                        (BodyAssigned "Task assigned successfully" t ad)) /\
    task_id t = id /\ task_status t = assigned /\
    task_assignedTo t = Some (ad_assignee ad) /\
    store_tasks (store run.1) !! id = Some t /\
    store_decisions (store run.1) = store_decisions (store w) ++ [dec] /\
    decision_taskId dec = id /\ decision_assignedTo dec = ad_assignee ad /\
    invocations (runTrace (Orchestrator.handler C e) w) = [].
Proof.
  intros Hty Hd Hmem Hteam Hsched Hgen Hnone id run. subst id run.
  pose proof (find_no_member _ _ Hnone) as Hfind.
  unfold runTrace. unfold_js. rewrite Hty, Hd. cbn. rewrite !Hmem. cbn.
  rewrite Hteam. cbn. rewrite Hsched. cbn. rewrite Hgen. cbn.
  rewrite !Hmem. cbn. rewrite Hfind. cbn.
  eexists _, _. repeat split.
  - unfold MemoryService.putDecision, MemoryService.putTask; cbn.
    by rewrite lookup_insert_eq.
  - rewrite <- !app_assoc, drop_app_length. reflexivity.
Qed.

Lemma C10_witness :
  (forall m, m ∈ Sample.roster -> member_name m <> "Zed") /\
  invocations
    (runTrace (Orchestrator.handler Sample.stranger (Sample.request ["docs"]))
       initialWorld) = [] /\
  statusCode <$>
    resolved (Orchestrator.handler Sample.stranger (Sample.request ["docs"])
                initialWorld).2 = Some 200.
Proof.
  assert (forall m, m ∈ Sample.roster -> member_name m <> "Zed") as Hnone.
  { intros m Hin. unfold Sample.roster in Hin. cbn in Hin.
    members Hin; discriminate. }
  split; [exact Hnone|].
  destruct (C10_unknown_assignee_is_silent Sample.stranger
              (Sample.request ["docs"]) _ initialWorld Sample.roster
              (mkRecommendation
                 (Some (mkCandidate (Some "Alex") (Some 0.85%float)
                          "Best skill match and lowest workload"))
                 [mkCandidate (Some "Sarah") (Some 0.65%float)
                    "Has some relevant skills but higher workload"])
              (mkAssignmentDecision "Zed" "Zed knows"
                 "Task Assignment - API documentation" "You are on it.")
              eq_refl eq_refl (fun _ _ => eq_refl) eq_refl (fun _ => eq_refl)
              (fun _ => eq_refl) Hnone)
    as (t & dec & Hres & _ & _ & _ & _ & _ & _ & _ & Hinv).
  split; [exact Hinv|]. rewrite Hres. reflexivity.
Defined.

(** * Further properties of the handlers *)

(** Case analysis on every answer a run of the orchestrator asks for. *)
Ltac ask_all :=
  repeat (cbn;
    match goal with
    | |- context [String.eqb (event_type ?e) ?s] =>
        destruct (String.eqb (event_type e) s) eqn:?
    | |- context [match event_data ?e with _ => _ end] =>
        destruct (event_data e) eqn:?
    | |- context [memoryAccepts ?C ?s ?op] =>
        destruct (memoryAccepts C s op) eqn:?
    | |- context [match teamDataFromSheets ?C with _ => _ end] =>
        destruct (teamDataFromSheets C) eqn:?
    | |- context [schedulerRecommendation ?C ?n ?t ?l] =>
        destruct (schedulerRecommendation C n t l) eqn:?
    | |- context [generateAssignment ?C ?a ?b ?c ?d] =>
        destruct (generateAssignment C a b c d) eqn:?
    | |- context [Orchestrator.findTeamMemberEmail ?n ?l] =>
        destruct (Orchestrator.findTeamMemberEmail n l) eqn:?
    | |- context [jsTruthyString ?s] => destruct (jsTruthyString s) eqn:?
    | |- context [lambdaAccepts ?C ?c] => destruct (lambdaAccepts C c) eqn:?
    | |- context [sesAccepts ?C ?c] => destruct (sesAccepts C c) eqn:?
    end); cbn.

Lemma jsTruthyString_nonempty s : jsTruthyString s = true -> s <> "".
Proof. unfold jsTruthyString. intros H ->. discriminate H. Qed.

(** X1. The orchestrator's handler never rejects: whatever the event and
    whatever the collaborators do, it resolves, with status 200 or with the
    500 "Internal server error" response. *)
Theorem orchestrator_always_answers C e w :
  exists r, (Orchestrator.handler C e w).2 = Resolved r /\
    (statusCode r = 200 \/ Resolved r = internalServerError).
Proof.
  unfold_js. ask_all; eexists; (split; [reflexivity|]); auto.
Qed.

(** X2. A success response is backed by the store: when the handler answers
    200 with a Task and an assignment, that Task bears the id drawn for the
    run, has status [assigned] and the assignee named by the text generator,
    the run wrote it after the [pending] version, and the run recorded
    exactly one Decision, for that Task and that assignee. *)
Theorem assigned_response_is_backed C e w msg t ad :
  (Orchestrator.handler C e w).2 =
    Resolved (mkResponse 200 (BodyAssigned msg t ad)) ->
  let w' := (Orchestrator.handler C e w).1 in
  let tr := runTrace (Orchestrator.handler C e) w in
  msg = "Task assigned successfully" /\
  task_id t = uuidv4_nth C (uuidCalls w) /\
  task_status t = assigned /\
  task_assignedTo t = Some (ad_assignee ad) /\
  store_tasks (store w') !! task_id t = Some t /\
  (exists t0, taskWrites tr = [t0; t] /\ task_status t0 = pending) /\
  (exists d, decisionWrites tr = [d] /\
     store_decisions (store w') = store_decisions (store w) ++ [d] /\
     decision_taskId d = task_id t /\
     decision_assignedTo d = ad_assignee ad /\
     decision_rationale d = ad_rationale ad).
Proof.
  unfold runTrace. unfold_js. ask_all; intros [= <- <- <-].
  all: rewrite <- ?app_assoc, ?drop_app_length; cbn.
  all: unfold MemoryService.putDecision, MemoryService.putTask; cbn.
  all: rewrite lookup_insert_eq.
  all: repeat split; eexists; repeat split.
Qed.

Lemma X2_witness :
  (Orchestrator.handler Sample.reliable (Sample.request ["docs"]) initialWorld).2 =
    Resolved
      (mkResponse 200
         (BodyAssigned "Task assigned successfully"
            (mkTask "task-0" "API documentation" (Some "Friday") ["docs"]
               "medium" assigned "boss@team.com" (Some "Alex")
               "2025-03-10T09:00:00Z" "2025-03-10T09:00:02Z")
            (mkAssignmentDecision "Alex" "Best match"
               "Task Assignment - API documentation" "You are on it."))) /\
  exists d,
    decisionWrites
      (runTrace (Orchestrator.handler Sample.reliable (Sample.request ["docs"]))
         initialWorld) = [d] /\
    decision_taskId d = "task-0" /\ decision_assignedTo d = "Alex".
Proof.
  assert ((Orchestrator.handler Sample.reliable (Sample.request ["docs"])
             initialWorld).2 =
          Resolved
            (mkResponse 200
               (BodyAssigned "Task assigned successfully"
                  (mkTask "task-0" "API documentation" (Some "Friday") ["docs"]
                     "medium" assigned "boss@team.com" (Some "Alex")
                     "2025-03-10T09:00:00Z" "2025-03-10T09:00:02Z")
                  (mkAssignmentDecision "Alex" "Best match"
                     "Task Assignment - API documentation" "You are on it."))))
    as Hres by (vm_compute; reflexivity).
  split; [exact Hres|].
  destruct (assigned_response_is_backed _ _ _ _ _ _ Hres)
    as (_ & _ & _ & _ & _ & _ & d & Hw & _ & Hid & Hto & _).
  exists d. split; [exact Hw | split; [exact Hid | exact Hto]].
Defined.

(** X3. A run dispatches at most one notification, and when it does, the
    notification is an assignment e-mail for the run's Task, addressed to
    the roster address of the named assignee with the requester in copy,
    carrying the subject and body written by the text generator. *)
Theorem dispatch_goes_to_assignee_cc_requester C e w ev :
  ev ∈ invocations (runTrace (Orchestrator.handler C e) w) ->
  exists d team description r ctx ad addr,
    event_data e = Some d /\
    teamDataFromSheets C = Resolved team /\
    generateAssignment C description team r ctx = Resolved ad /\
    Orchestrator.findTeamMemberEmail (ad_assignee ad) team = Some addr /\
    addr <> "" /\
    ev = mkEmailSenderEvent "assignment_email"
           (mkOutgoingEmail [addr; email_from (data_email d)]
              (ad_emailSubject ad) (ad_emailBody ad))
           (uuidv4_nth C (uuidCalls w)) /\
    invocations (runTrace (Orchestrator.handler C e) w) = [ev].
Proof.
  unfold runTrace. unfold_js. ask_all.
  all: rewrite <- ?app_assoc, ?drop_app_length, ?drop_all; cbn.
  all: intros Hin; members Hin.
  all: do 7 eexists; repeat split; eauto using jsTruthyString_nonempty.
Qed.

Lemma X3_witness :
  mkEmailSenderEvent "assignment_email"
    (mkOutgoingEmail ["alex@team.com"; "boss@team.com"]
       "Task Assignment - API documentation" "You are on it.") "task-0"
  ∈ invocations
      (runTrace (Orchestrator.handler Sample.reliable (Sample.request ["docs"]))
         initialWorld) /\
  invocations
    (runTrace (Orchestrator.handler Sample.reliable (Sample.request ["docs"]))
       initialWorld) =
  [mkEmailSenderEvent "assignment_email"
     (mkOutgoingEmail ["alex@team.com"; "boss@team.com"]
        "Task Assignment - API documentation" "You are on it.") "task-0"].
Proof.
  assert (mkEmailSenderEvent "assignment_email"
            (mkOutgoingEmail ["alex@team.com"; "boss@team.com"]
               "Task Assignment - API documentation" "You are on it.") "task-0"
          ∈ invocations
              (runTrace
                 (Orchestrator.handler Sample.reliable (Sample.request ["docs"]))
                 initialWorld)) as Hin.
  { vm_compute. apply list_elem_of_here. }
  split; [exact Hin|].
  destruct (dispatch_goes_to_assignee_cc_requester _ _ _ _ Hin)
    as (d & team & desc & r & ctx & ad & addr & _ & _ & _ & _ & _ & _ & Hall).
  exact Hall.
Defined.

(** X4. Nothing is rolled back when the dispatch fails: if the Lambda
    client refuses the invocation of the e-mail sender, the handler answers
    500 although the Task is stored as [assigned] and its Decision is
    recorded. *)
Theorem failed_dispatch_keeps_the_assignment C e d w team r ad addr :
  event_type e = "email_received" -> event_data e = Some d ->
  (forall s op, memoryAccepts C s op = true) ->
  teamDataFromSheets C = Resolved team ->
  (forall task,
     schedulerRecommendation C (optimizerCalls w) task team = Resolved r) ->
  (forall ctx,
     generateAssignment C (request_description (data_taskRequest d)) team r ctx
     = Resolved ad) ->
  Orchestrator.findTeamMemberEmail (ad_assignee ad) team = Some addr ->
  addr <> "" ->
  (forall ev, lambdaAccepts C ev = false) ->
  let run := Orchestrator.handler C e w in
  let id := uuidv4_nth C (uuidCalls w) in
  run.2 = internalServerError /\
  (exists t, store_tasks (store run.1) !! id = Some t /\
     task_status t = assigned /\
     task_assignedTo t = Some (ad_assignee ad)) /\
  (exists dec, store_decisions (store run.1) = store_decisions (store w) ++ [dec] /\
     decision_taskId dec = id /\ decision_assignedTo dec = ad_assignee ad) /\
  length (invocations (runTrace (Orchestrator.handler C e) w)) = 1.
Proof.
  intros Hty Hd Hmem Hteam Hsched Hgen Hfind Haddr Hlam run id. subst run id.
  assert (jsTruthyString addr = true) as Htruthy.
  { unfold jsTruthyString. destruct (String.eqb_spec addr ""); done. }
  unfold runTrace. unfold_js. rewrite Hty, Hd. cbn. rewrite !Hmem. cbn.
  rewrite Hteam. cbn. rewrite Hsched. cbn. rewrite Hgen. cbn.
  rewrite !Hmem. cbn. rewrite Hfind. cbn. rewrite Htruthy, Hlam. cbn.
  rewrite <- !app_assoc, drop_app_length. cbn.
  unfold MemoryService.putDecision, MemoryService.putTask; cbn.
  rewrite lookup_insert_eq.
  repeat split; eexists; repeat split.
Qed.

Lemma X4_witness :
  (Orchestrator.handler
     (mkCollaborators Sample.ids Sample.times (fun _ _ => true) (fun _ => true)
        (fun _ => "stats") Orchestrator.getTeamDataFromSheets
        (fun _ => Orchestrator.getSchedulerRecommendation)
        Sample.followPrimary (fun _ => false) (fun _ => true) "depalma.work")
     (Sample.request ["docs"]) initialWorld).2 = internalServerError.
Proof.
  refine (proj1
    (failed_dispatch_keeps_the_assignment
       (mkCollaborators Sample.ids Sample.times (fun _ _ => true)
          (fun _ => true) (fun _ => "stats")
          Orchestrator.getTeamDataFromSheets
          (fun _ => Orchestrator.getSchedulerRecommendation)
          Sample.followPrimary (fun _ => false) (fun _ => true) "depalma.work")
       (Sample.request ["docs"]) _ initialWorld Sample.roster
       (mkRecommendation
          (Some (mkCandidate (Some "Alex") (Some 0.85%float)
                   "Best skill match and lowest workload"))
          [mkCandidate (Some "Sarah") (Some 0.65%float)
             "Has some relevant skills but higher workload"])
       (mkAssignmentDecision "Alex" "Best match"
          "Task Assignment - API documentation" "You are on it.")
       "alex@team.com"
       eq_refl eq_refl (fun _ _ => eq_refl) eq_refl (fun _ => eq_refl)
       (fun _ => eq_refl) eq_refl _ (fun _ => eq_refl))).
  discriminate.
Defined.

(** X5. When the text generator fails, the handler answers 500 after one
    consultation of the scheduler; the Task stays stored as [pending] with
    no assignee, and neither a Decision nor a notification is produced. *)
Theorem generator_failure_leaves_task_pending C e d w team r err :
  event_type e = "email_received" -> event_data e = Some d ->
  (forall s op, memoryAccepts C s op = true) ->
  teamDataFromSheets C = Resolved team ->
  (forall task,
     schedulerRecommendation C (optimizerCalls w) task team = Resolved r) ->
  (forall ctx,
     generateAssignment C (request_description (data_taskRequest d)) team r ctx
     = Rejected err) ->
  let run := Orchestrator.handler C e w in
  let tr := runTrace (Orchestrator.handler C e) w in
  run.2 = internalServerError /\
  (exists t, store_tasks (store run.1) !! uuidv4_nth C (uuidCalls w) = Some t /\
     task_status t = pending /\ task_assignedTo t = None) /\
  store_decisions (store run.1) = store_decisions (store w) /\
  decisionWrites tr = [] /\ invocations tr = [] /\
  optimizerCalls run.1 = S (optimizerCalls w).
Proof.
  intros Hty Hd Hmem Hteam Hsched Hgen run tr. subst run tr.
  unfold runTrace. unfold_js. rewrite Hty, Hd. cbn. rewrite !Hmem. cbn.
  rewrite Hteam. cbn. rewrite Hsched. cbn. rewrite Hgen. cbn.
  rewrite <- !app_assoc, drop_app_length. cbn.
  unfold MemoryService.putTask; cbn. rewrite lookup_insert_eq.
  repeat split. eexists; repeat split.
Qed.

Lemma X5_witness :
  (Orchestrator.handler
     (mkCollaborators Sample.ids Sample.times (fun _ _ => true) (fun _ => true)
        (fun _ => "stats") Orchestrator.getTeamDataFromSheets
        (fun _ => Orchestrator.getSchedulerRecommendation)
        (fun _ _ _ _ => Rejected (newError "overloaded"))
        (fun _ => true) (fun _ => true) "depalma.work")
     (Sample.request ["docs"]) initialWorld).2 = internalServerError.
Proof.
  refine (proj1
    (generator_failure_leaves_task_pending
       (mkCollaborators Sample.ids Sample.times (fun _ _ => true)
          (fun _ => true) (fun _ => "stats")
          Orchestrator.getTeamDataFromSheets
          (fun _ => Orchestrator.getSchedulerRecommendation)
          (fun _ _ _ _ => Rejected (newError "overloaded"))
          (fun _ => true) (fun _ => true) "depalma.work")
       (Sample.request ["docs"]) _ initialWorld Sample.roster
       (mkRecommendation
          (Some (mkCandidate (Some "Alex") (Some 0.85%float)
                   "Best skill match and lowest workload"))
          [mkCandidate (Some "Sarah") (Some 0.65%float)
             "Has some relevant skills but higher workload"])
       (newError "overloaded")
       eq_refl eq_refl (fun _ _ => eq_refl) eq_refl (fun _ => eq_refl)
       (fun _ => eq_refl))).
Defined.

(** X6. The orchestrator only adds to the store: a run keeps every stored
    Task id, never touches the stored Messages, and leaves the Decision log
    as it was or longer by exactly one entry. *)
Theorem orchestrator_only_appends C e w :
  let w' := (Orchestrator.handler C e w).1 in
  (forall id, is_Some (store_tasks (store w) !! id) ->
     is_Some (store_tasks (store w') !! id)) /\
  store_messages (store w') = store_messages (store w) /\
  (store_decisions (store w') = store_decisions (store w) \/
   exists d, store_decisions (store w') = store_decisions (store w) ++ [d]).
Proof.
  intros w'. subst w'. pose proof (handler_run C e w) as R.
  inversion R as [ Htr Hst | t0 P0 Htr Hst | t0 P0 Htr Hst | t0 P0 Htr Hst
                 | t0 t1 P0 P1 Htr Hst | t0 t1 d sent P0 P1 Hd Hs Htr Hst ];
    unfold MemoryService.putDecision, MemoryService.putTask; cbn.
  all: split; [|split; [reflexivity|eauto]].
  all: intros id Hid; rewrite ?lookup_insert_is_Some'; eauto 10.
Qed.

(** X7. [findTeamMemberEmail] answers with the address of the first roster
    entry that bears the name, whatever follows it: a later entry with the
    same name is never consulted, even when the first has no address. *)
Theorem findTeamMemberEmail_first_match name before m after :
  (forall x, x ∈ before -> member_name x <> name) ->
  member_name m = name ->
  Orchestrator.findTeamMemberEmail name (before ++ m :: after) = member_email m.
Proof.
  unfold Orchestrator.findTeamMemberEmail. intros Hbefore Hm.
  induction before as [|x l IH]; cbn.
  - apply String.eqb_eq in Hm. by rewrite Hm.
  - destruct (String.eqb_spec (member_name x) name) as [Heq|_].
    + exfalso. apply (Hbefore x); [apply list_elem_of_here | exact Heq].
    + apply IH. intros y Hy. apply Hbefore. by apply list_elem_of_further.
Qed.

Lemma X7_witness :
  (forall x, x ∈ [mkTeamMember "Alex" (Some "alex@team.com") [] 30 "available"] ->
     member_name x <> "Sam") /\
  Orchestrator.findTeamMemberEmail "Sam"
    ([mkTeamMember "Alex" (Some "alex@team.com") [] 30 "available"] ++
     mkTeamMember "Sam" None [] 10 "available" ::
     [mkTeamMember "Sam" (Some "sam@team.com") [] 20 "available"]) = None.
Proof.
  assert (forall x,
            x ∈ [mkTeamMember "Alex" (Some "alex@team.com") [] 30 "available"] ->
            member_name x <> "Sam") as Hbefore.
  { intros x Hin. members Hin. discriminate. }
  split; [exact Hbefore|].
  exact (findTeamMemberEmail_first_match "Sam" _
           (mkTeamMember "Sam" None [] 10 "available") _ Hbefore eq_refl).
Defined.

(** X8. The placeholder scheduler reads nothing but the names of the first
    two roster entries: it rejects exactly when the roster is empty, and two
    rosters that agree on those names get the same recommendation whatever
    the task and whatever the skills, workload and availability of their
    members. *)
Theorem scheduler_reads_two_names task task' team team' :
  member_name <$> take 2 team = member_name <$> take 2 team' ->
  Orchestrator.getSchedulerRecommendation task team =
  Orchestrator.getSchedulerRecommendation task' team' /\
  (team = [] <->
   exists err, Orchestrator.getSchedulerRecommendation task team = Rejected err).
Proof.
  intros Hnames. split.
  - unfold Orchestrator.getSchedulerRecommendation.
    destruct team as [|a [|b l]], team' as [|a' [|b' l']];
      cbn in *; simplify_eq; try reflexivity.
    all: repeat match goal with H : member_name _ = member_name _ |- _ =>
                  rewrite H; clear H end; reflexivity.
  - unfold Orchestrator.getSchedulerRecommendation. split.
    + intros ->. eauto.
    + destruct team; [done|]. intros [err Herr]. discriminate Herr.
Qed.

Lemma X8_witness :
  member_name <$> take 2 Sample.roster =
  member_name <$>
    take 2 [mkTeamMember "Alex" None [] 100 "on leave";
            mkTeamMember "Sarah" None [] 0 "busy";
            mkTeamMember "Zed" None ["docs"] 0 "available"] /\
  Orchestrator.getSchedulerRecommendation
    (mkTask "t" "API documentation" None ["docs"] "high" pending "boss" None
       "now" "now") Sample.roster =
  Orchestrator.getSchedulerRecommendation
    (mkTask "u" "Mobile release" None ["mobile"] "low" pending "ann" None
       "now" "now")
    [mkTeamMember "Alex" None [] 100 "on leave";
     mkTeamMember "Sarah" None [] 0 "busy";
     mkTeamMember "Zed" None ["docs"] 0 "available"].
Proof.
  split; [reflexivity|].
  exact (proj1 (scheduler_reads_two_names _ _ Sample.roster
                  [mkTeamMember "Alex" None [] 100 "on leave";
                   mkTeamMember "Sarah" None [] 0 "busy";
                   mkTeamMember "Zed" None ["docs"] 0 "available"] eq_refl)).
Defined.

(** X9. Only [email_received] events have effects: for every other event
    type, recognized or not, the handler leaves the store and the trace as
    they were, draws no id and does not consult the scheduler.  A
    [manual_task] event is answered 200 "Manual task handling not
    implemented yet" and nothing else happens, whatever it carries. *)
Theorem only_email_events_have_effects C e w :
  event_type e <> "email_received" ->
  let w' := (Orchestrator.handler C e w).1 in
  store w' = store w /\ trace w' = trace w /\
  uuidCalls w' = uuidCalls w /\ optimizerCalls w' = optimizerCalls w /\
  (event_type e = "manual_task" ->
   Orchestrator.handler C e w =
   (w, Resolved (mkResponse 200
                   (BodyMessage "Manual task handling not implemented yet")))).
Proof.
  intros Hty w'. subst w'. apply String.eqb_neq in Hty.
  unfold_js. rewrite Hty. split_and!.
  1-4: ask_all; reflexivity.
  intros ->. reflexivity.
Qed.

Lemma X9_witness :
  event_type (mkOrchestratorEvent "health_check" None "api") <> "email_received" /\
  store (Orchestrator.handler Sample.reliable
           (mkOrchestratorEvent "health_check" None "api") initialWorld).1 =
  store initialWorld.
Proof.
  assert (event_type (mkOrchestratorEvent "health_check" None "api")
          <> "email_received") as Hty by discriminate.
  split; [exact Hty|].
  exact (proj1 (only_email_events_have_effects Sample.reliable _ initialWorld Hty)).
Defined.

(** X10. A health check answers 200 with status "healthy", the current time
    and the statistics of the store as it is, and answers 500 when the
    memory service refuses the statistics request. *)
Theorem health_check_reports_the_store C e w :
  event_type e = "health_check" ->
  (Orchestrator.handler C e w).2 =
  if memoryAccepts C (store w) OpGetMemoryStats then
    Resolved (mkResponse 200
                (BodyHealth "healthy" (isoTime_nth C (dateCalls w))
                   (memoryStats C (store w))))
  else internalServerError.
Proof.
  intros Hty. unfold_js. rewrite Hty. ask_all; reflexivity.
Qed.

Lemma X10_witness :
  event_type (mkOrchestratorEvent "health_check" None "api") = "health_check" /\
  (Orchestrator.handler Sample.reliable
     (mkOrchestratorEvent "health_check" None "api") initialWorld).2 =
  Resolved (mkResponse 200 (BodyHealth "healthy" "2025-03-10T09:00:00Z" "stats")).
Proof.
  split; [reflexivity|].
  exact (health_check_reports_the_store Sample.reliable
           (mkOrchestratorEvent "health_check" None "api") initialWorld eq_refl).
Defined.

(** The fields of the Task versions a run writes. *)
Lemma task_write_fields C e w t :
  t ∈ taskWrites (runTrace (Orchestrator.handler C e) w) ->
  exists d, event_data e = Some d /\
    task_id t = uuidv4_nth C (uuidCalls w) /\
    task_description t = request_description (data_taskRequest d) /\
    task_deadline t = request_deadline (data_taskRequest d) /\
    task_skillsRequired t = request_skillsRequired (data_taskRequest d) /\
    task_requestedBy t = email_from (data_email d) /\
    task_createdAt t = isoTime_nth C (dateCalls w) /\
    task_priority t = orString (request_priority (data_taskRequest d)) "medium".
Proof.
  unfold runTrace. unfold_js. ask_all.
  all: rewrite <- ?app_assoc, ?drop_app_length, ?drop_all; cbn.
  all: intros Hin; members Hin.
  all: eexists; repeat split.
Qed.



(** X12. What the orchestrator packs, the sender unpacks: the event queued
    by the orchestrator's [sendAssignmentEmail] is routed by the sender to
    its own [sendAssignmentEmail], which recovers the assignee's address and
    the copy list as they were given, with subject, body and Task id; the
    assignee's name is not carried over and becomes "Unknown". *)
Theorem sender_recovers_what_orchestrator_packed C p w :
  exists ev,
    invocations (runTrace (Orchestrator.sendAssignmentEmail C p) w) = [ev] /\
    (forall C', EmailSender.route C' ev = EmailSender.sendAssignmentEmail C' ev) /\
    assignmentCall ev =
      SesAssignment "Unknown" (Some (param_assigneeEmail p)) (param_ccEmails p)
        (param_subject p) (param_body p) (param_taskId p) /\
    (forall C' w',
       sesSends (runTrace (EmailSender.handler C' ev) w') = [assignmentCall ev]).
Proof.
  exists (mkEmailSenderEvent "assignment_email"
            (mkOutgoingEmail (param_assigneeEmail p :: param_ccEmails p)
               (param_subject p) (param_body p))
            (param_taskId p)).
  split; [|split; [|split]].
  - unfold runTrace. unfold_js. ask_all.
    all: rewrite <- ?app_assoc, ?drop_app_length; reflexivity.
  - intros C'. reflexivity.
  - reflexivity.
  - intros C' w'. unfold runTrace.
    match goal with |- context [EmailSender.handler C' ?ev] =>
      destruct (sender_trace C' ev w' eq_refl) as (rest & -> & Hrest) end.
    rewrite drop_app_length. unfold sesSends in *. cbn. by rewrite Hrest.
Qed.

(** X13. The e-mail sender's handler never rejects: it resolves with status
    200 or with the 500 "Failed to send email" response; for an event type
    it does not know it answers 500 and does nothing at all. *)
Theorem sender_always_answers C ev w :
  (exists r, (EmailSender.handler C ev w).2 = Resolved r /\
     (statusCode r = 200 \/
      r = mkResponse 500 (BodyError "Failed to send email"))) /\
  (sender_type ev <> "assignment_email" ->
   sender_type ev <> "notification_email" ->
   EmailSender.handler C ev w =
   (w, Resolved (mkResponse 500 (BodyError "Failed to send email")))).
Proof.
  split.
  - unfold_js.
    destruct (String.eqb (sender_type ev) "assignment_email");
      [|destruct (String.eqb (sender_type ev) "notification_email")].
    all: ask_all; eexists; (split; [reflexivity|]); auto.
  - intros H1 H2. apply String.eqb_neq in H1, H2. unfold_js.
    by rewrite H1, H2.
Qed.

(** X14. The sender answers 200 exactly when it has recorded the sent
    e-mail: a 200 response means that one request was issued to the mail
    transport and accepted, and that one outgoing Message was stored
    afterwards, from "louie@" and the e-mail domain to the first recipient,
    under a freshly drawn id; any other answer leaves the store as it
    was. *)
Theorem sender_success_is_recorded C ev w r :
  (EmailSender.handler C ev w).2 = Resolved r ->
  let w' := (EmailSender.handler C ev w).1 in
  let tr := runTrace (EmailSender.handler C ev) w in
  let m := sentMessage C w (sender_emailData ev) in
  (statusCode r = 200 ->
   storedMessages tr = [m] /\
   store w' = MemoryService.putMessage MemoryService.HOT_WINDOW m (store w) /\
   (exists c, tr = [SesSend c; StoreMessage m] /\ sesAccepts C c = true) /\
   exists text taskId,
     body r = BodySent text taskId (out_to (sender_emailData ev))) /\
  (statusCode r <> 200 -> storedMessages tr = [] /\ store w' = store w).
Proof.
  unfold runTrace, sentMessage. unfold_js.
  destruct (String.eqb (sender_type ev) "assignment_email");
    [|destruct (String.eqb (sender_type ev) "notification_email")].
  all: ask_all; intros [= <-]; cbn.
  all: rewrite <- ?app_assoc, ?drop_app_length, ?drop_all; cbn.
  all: split; [intros H | intros H]; try done.
  all: repeat split; eauto.
Qed.

Lemma X14_witness :
  (EmailSender.handler Sample.reliable Sample.assignmentMail initialWorld).2 =
    Resolved
      (mkResponse 200
         (BodySent "Assignment email sent successfully" (Some "task-0")
            ["alex@team.com"; "boss@team.com"])) /\
  storedMessages
    (runTrace (EmailSender.handler Sample.reliable Sample.assignmentMail)
       initialWorld) =
  [mkMessage "task-0" "louie@depalma.work" (Some "alex@team.com")
     "Task Assignment - API documentation" "You are on it."
     "2025-03-10T09:00:00Z" outgoing].
Proof.
  split; [reflexivity|].
  exact (proj1
    (proj1 (sender_success_is_recorded Sample.reliable Sample.assignmentMail
              initialWorld _ eq_refl) eq_refl)).
Defined.

(** X15. A 500 from the sender does not mean that nothing was sent: when
    the mail transport accepts the assignment e-mail and the memory service
    then refuses to store it, the handler answers 500 although the request
    to the transport was issued and accepted, and no Message records it. *)
Theorem sent_but_answered_500 C ev w :
  sender_type ev = "assignment_email" ->
  sesAccepts C (assignmentCall ev) = true ->
  (forall s m, memoryAccepts C s (OpStoreMessage m) = false) ->
  let run := EmailSender.handler C ev w in
  let tr := runTrace (EmailSender.handler C ev) w in
  run.2 = Resolved (mkResponse 500 (BodyError "Failed to send email")) /\
  tr = [SesSend (assignmentCall ev)] /\
  store run.1 = store w.
Proof.
  intros Hty Hses Hmem run tr. subst run tr.
  unfold runTrace. unfold assignmentCall in Hses. unfold_js.
  rewrite Hty. cbn. rewrite Hses. cbn. rewrite Hmem. cbn.
  rewrite drop_app_length. repeat split.
Qed.

Lemma X15_witness :
  (EmailSender.handler
     (mkCollaborators Sample.ids Sample.times (fun _ _ => false)
        (fun _ => true) (fun _ => "stats") Orchestrator.getTeamDataFromSheets
        (fun _ => Orchestrator.getSchedulerRecommendation)
        Sample.followPrimary (fun _ => true) (fun _ => true) "depalma.work")
     Sample.assignmentMail initialWorld).2 =
  Resolved (mkResponse 500 (BodyError "Failed to send email")).
Proof.
  exact (proj1
    (sent_but_answered_500
       (mkCollaborators Sample.ids Sample.times (fun _ _ => false)
          (fun _ => true) (fun _ => "stats")
          Orchestrator.getTeamDataFromSheets
          (fun _ => Orchestrator.getSchedulerRecommendation)
          Sample.followPrimary (fun _ => true) (fun _ => true) "depalma.work")
       Sample.assignmentMail initialWorld eq_refl eq_refl (fun _ _ => eq_refl))).
Defined.

(** X16. A notification e-mail goes to the mail transport as one request
    that carries the whole recipient list, with no split into assignee and
    copies, whether or not the transport accepts it; the Message recorded on
    success is addressed to the first recipient only. *)
Theorem notification_carries_all_recipients C ev w :
  sender_type ev = "notification_email" ->
  let tr := runTrace (EmailSender.handler C ev) w in
  sesSends tr =
    [SesNotification (out_to (sender_emailData ev))
       (out_subject (sender_emailData ev)) (out_body (sender_emailData ev))] /\
  (forall m, m ∈ storedMessages tr ->
     msg_to m = head (out_to (sender_emailData ev)) /\ msg_type m = outgoing).
Proof.
  intros Hty tr. subst tr. unfold runTrace. unfold_js. rewrite Hty. cbn.
  ask_all.
  all: rewrite <- ?app_assoc, ?drop_app_length; cbn.
  all: split; [reflexivity|]; intros m Hin; members Hin; split; reflexivity.
Qed.

Lemma X16_witness :
  sender_type
    (mkEmailSenderEvent "notification_email"
       (mkOutgoingEmail ["ann@team.com"; "bob@team.com"] "Heads up" "Friday.")
       "task-0") = "notification_email" /\
  sesSends
    (runTrace
       (EmailSender.handler Sample.reliable
          (mkEmailSenderEvent "notification_email"
             (mkOutgoingEmail ["ann@team.com"; "bob@team.com"] "Heads up"
                "Friday.") "task-0")) initialWorld) =
  [SesNotification ["ann@team.com"; "bob@team.com"] "Heads up" "Friday."].
Proof.
  split; [reflexivity|].
  exact (proj1
    (notification_carries_all_recipients Sample.reliable
       (mkEmailSenderEvent "notification_email"
          (mkOutgoingEmail ["ann@team.com"; "bob@team.com"] "Heads up"
             "Friday.") "task-0") initialWorld eq_refl)).
Defined.

(** ** Runs of the e-mail receiver *)

Ltac unfold_receiver :=
  unfold EmailReceiver.handler, EmailReceiver.processEmailRecord,
    EmailReceiver.invokeOrchestrator, EmailReceiver.liftM,
    EmailReceiver.awaitR, EmailReceiver.tryCatchR, EmailReceiver.bindR,
    EmailReceiver.retR, EmailReceiver.throwR in *.

(** The ways the processing of one record can end: the record was stored
    and its event issued, or nothing was issued for it. *)
Lemma processEmailRecord_cases C RC record st :
  let res := EmailReceiver.processEmailRecord C RC record st in
  let w := EmailReceiver.inbox_world st in
  let w' := EmailReceiver.inbox_world res.1 in
  (exists ev m,
     eventFor RC record = Resolved ev /\ eventMessage ev = Some m /\
     memoryAccepts C (store w) (OpStoreMessage m) = true /\
     trace w' = trace w ++ [StoreMessage m] /\
     EmailReceiver.inbox_invoked res.1 = EmailReceiver.inbox_invoked st ++ [ev] /\
     (res.2 = Resolved tt <-> EmailReceiver.orchestratorAccepts RC ev = true)) \/
  ((exists err, res.2 = Rejected err) /\
   EmailReceiver.inbox_invoked res.1 = EmailReceiver.inbox_invoked st /\
   (trace w' = trace w \/ exists m, trace w' = trace w ++ [StoreMessage m]) /\
   (forall ev, eventFor RC record = Resolved ev ->
      exists m, eventMessage ev = Some m /\
        memoryAccepts C (store w) (OpStoreMessage m) = false)).
Proof.
  unfold eventFor, eventMessage, incomingMessage. unfold_receiver. unfold_js.
  cbn.
  destruct (EmailReceiver.parseEmailEvent RC record) as [emailData|err] eqn:Hp;
    cbn.
  2: { right. repeat split; eauto. intros ev [=]. }
  destruct (memoryAccepts C _ _) eqn:Hmem; cbn.
  2: { right. repeat split; eauto.
       destruct (EmailReceiver.extractTaskRequest RC _ _); intros ev [= <-].
       cbn. eauto. }
  destruct (EmailReceiver.extractTaskRequest RC _ _) as [taskRequest|err] eqn:Hx;
    cbn.
  2: { right. repeat split; eauto. intros ev [=]. }
  left. eexists _, _. repeat split; try reflexivity; try exact Hmem.
  all: destruct (EmailReceiver.orchestratorAccepts RC _); cbn; done.
Qed.

Lemma processRecords_cons C RC record rest st :
  EmailReceiver.processRecords C RC (record :: rest) st =
  match EmailReceiver.processEmailRecord C RC record st with
  | (st', Resolved _) => EmailReceiver.processRecords C RC rest st'
  | (st', Rejected e) => (st', Rejected e)
  end.
Proof. reflexivity. Qed.

Lemma processRecords_app C RC l1 l2 st :
  EmailReceiver.processRecords C RC (l1 ++ l2) st =
  match EmailReceiver.processRecords C RC l1 st with
  | (st', Resolved _) => EmailReceiver.processRecords C RC l2 st'
  | (st', Rejected e) => (st', Rejected e)
  end.
Proof.
  revert st. induction l1 as [|r l1 IH]; intros st; [reflexivity|].
  rewrite <- app_comm_cons, !processRecords_cons.
  destruct (EmailReceiver.processEmailRecord C RC r st) as [st' [[]|e]];
    [apply IH | reflexivity].
Qed.

(** The events issued by the loop are those of a prefix of the records, in
    order, each after its message was stored. *)
Lemma processRecords_prefix C RC records st :
  let res := EmailReceiver.processRecords C RC records st in
  exists evs msgs,
    EmailReceiver.inbox_invoked res.1 = EmailReceiver.inbox_invoked st ++ evs /\
    trace (EmailReceiver.inbox_world res.1) =
      trace (EmailReceiver.inbox_world st) ++ (StoreMessage <$> msgs) /\
    Forall2 (fun r ev => eventFor RC r = Resolved ev)
      (take (length evs) records) evs /\
    omap eventMessage evs = take (length evs) msgs /\
    length evs <= length msgs <= length records /\
    (res.2 = Resolved tt ->
     length evs = length records /\ length msgs = length records).
Proof.
  revert st. induction records as [|r rest IH]; intros st res; subst res.
  - exists [], []. cbn. rewrite !app_nil_r. split_and!; try done; try constructor.
  - rewrite processRecords_cons.
    destruct (processEmailRecord_cases C RC r st)
      as [(ev & m & Hev & Hm & Hacc & Htr & Hinv & Hres)
         |((err & Hres) & Hinv & Htr & _)].
    + destruct (EmailReceiver.processEmailRecord C RC r st) as [st1 o1].
      cbn in *. destruct o1 as [[]|e1].
      * destruct (IH st1) as (evs & msgs & Hinv' & Htr' & Hf & Hmsg & Hlen & Hok).
        exists (ev :: evs), (m :: msgs). cbn.
        rewrite Hinv', Htr', Hinv, Htr, Hm, Hmsg, <- !app_assoc. cbn.
        split_and!; try done; try lia.
        -- by constructor.
        -- intros H. destruct (Hok H). lia.
      * exists [ev], [m]. cbn. rewrite Hinv, Htr, Hm.
        split_and!; try done; try lia; try by repeat constructor.
    + destruct (EmailReceiver.processEmailRecord C RC r st) as [st1 o1].
      cbn in *. subst o1.
      destruct Htr as [Htr|[m Htr]].
      * exists [], []. cbn. rewrite Hinv, Htr, !app_nil_r.
        split_and!; try done; try lia; try constructor.
      * exists [], [m]. cbn. rewrite Hinv, Htr, !app_nil_r.
        split_and!; try done; try lia; try constructor.
Qed.

(** Every record is processed when every collaborator accepts. *)
Lemma processRecords_all C RC records evs st :
  (forall s op, memoryAccepts C s op = true) ->
  (forall ev, EmailReceiver.orchestratorAccepts RC ev = true) ->
  Forall2 (fun r ev => eventFor RC r = Resolved ev) records evs ->
  exists st',
    EmailReceiver.processRecords C RC records st = (st', Resolved tt) /\
    EmailReceiver.inbox_invoked st' = EmailReceiver.inbox_invoked st ++ evs /\
    exists msgs,
      omap eventMessage evs = msgs /\ length msgs = length evs /\
      trace (EmailReceiver.inbox_world st') =
        trace (EmailReceiver.inbox_world st) ++ (StoreMessage <$> msgs).
Proof.
  intros Hmem Hacc Hall. revert st.
  induction Hall as [|r ev rest evs Hev _ IH]; intros st.
  - exists st. cbn. rewrite !app_nil_r. repeat split. exists []. by rewrite app_nil_r.
  - rewrite processRecords_cons.
    destruct (processEmailRecord_cases C RC r st)
      as [(ev' & m & Hev' & Hm & _ & Htr & Hinv & Hres)
         |(_ & _ & _ & Hno)].
    + assert (ev' = ev) as -> by congruence.
      destruct (EmailReceiver.processEmailRecord C RC r st) as [st1 o1].
      cbn in *. rewrite (proj2 Hres (Hacc ev)).
      destruct (IH st1) as (st' & -> & Hinv' & msgs & Hmsgs & Hlen & Htr').
      exists st'. split; [reflexivity|]. rewrite Hinv', Hinv, <- app_assoc.
      split; [reflexivity|]. exists (m :: msgs). cbn.
      rewrite Hm, Hmsgs, Htr', Htr, <- app_assoc. cbn. repeat split. lia.
    + destruct (Hno ev Hev) as (m & _ & Hfalse). rewrite Hmem in Hfalse.
      discriminate Hfalse.
Qed.

Lemma storedMessages_fmap msgs : storedMessages (StoreMessage <$> msgs) = msgs.
Proof.
  unfold storedMessages. induction msgs as [|m l IH]; cbn; [done|].
  by rewrite IH.
Qed.

Lemma receiver_handler_unfold C RC event st :
  EmailReceiver.handler C RC event st =
  match EmailReceiver.processRecords C RC (EmailReceiver.Records event) st with
  | (st', Resolved _) => (st', processed)
  | (st', Rejected _) => (st', notProcessed)
  end.
Proof.
  unfold EmailReceiver.handler, EmailReceiver.tryCatchR, EmailReceiver.bindR,
    EmailReceiver.retR.
  destruct (EmailReceiver.processRecords C RC (EmailReceiver.Records event) st)
    as [st' [[]|e]]; reflexivity.
Qed.

Lemma eventFor_inv RC record ev :
  eventFor RC record = Resolved ev ->
  exists emailData taskRequest,
    EmailReceiver.parseEmailEvent RC record = Resolved emailData /\
    EmailReceiver.extractTaskRequest RC (email_subject emailData) "" =
      Resolved taskRequest /\
    ev = mkOrchestratorEvent "email_received"
           (Some (mkEventData emailData taskRequest (incomingMessage emailData)))
           "email-receiver".
Proof.
  unfold eventFor. intros H.
  destruct (EmailReceiver.parseEmailEvent RC record) as [emailData|]; [|done].
  destruct (EmailReceiver.extractTaskRequest RC _ _) as [taskRequest|] eqn:Hx;
    [|done].
  injection H as <-. eauto.
Qed.

(** Where an issued event comes from. *)
Lemma invoked_origin C RC event st ev :
  ev ∈ newlyInvoked st (EmailReceiver.handler C RC event st).1 ->
  exists record m,
    record ∈ EmailReceiver.Records event /\
    eventFor RC record = Resolved ev /\
    eventMessage ev = Some m /\
    m ∈ newlyStored st (EmailReceiver.handler C RC event st).1.
Proof.
  unfold newlyInvoked, newlyStored. rewrite receiver_handler_unfold.
  destruct (processRecords_prefix C RC (EmailReceiver.Records event) st)
    as (evs & msgs & Hinv & Htr & Hall & Hmsgs & Hlen & _).
  destruct (EmailReceiver.processRecords C RC (EmailReceiver.Records event) st)
    as [st' o].
  assert (EmailReceiver.inbox_invoked
            (match o with
             | Resolved _ => (st', processed)
             | Rejected _ => (st', notProcessed)
             end).1 = EmailReceiver.inbox_invoked st') as -> by by destruct o.
  assert (EmailReceiver.inbox_world
            (match o with
             | Resolved _ => (st', processed)
             | Rejected _ => (st', notProcessed)
             end).1 = EmailReceiver.inbox_world st') as -> by by destruct o.
  cbn in Hinv, Htr. rewrite Hinv, Htr, !drop_app_length, storedMessages_fmap.
  intros Hin. apply list_elem_of_lookup in Hin as [i Hi].
  destruct (Forall2_lookup_r _ _ _ _ _ Hall Hi) as (record & Hrec & Hev).
  apply lookup_take_Some in Hrec as [Hrec _].
  destruct (eventFor_inv RC record ev Hev) as (emailData & tr & _ & _ & ->).
  exists record, (incomingMessage emailData).
  split_and!; [by eapply list_elem_of_lookup_2 | exact Hev | reflexivity |].
  apply (subseteq_take (length evs) msgs). rewrite <- Hmsgs.
  apply list_elem_of_omap. eexists. split; [by eapply list_elem_of_lookup_2|].
  reflexivity.
Qed.

(** X17. The receiver's handler never rejects: it answers 200 "Emails
    processed successfully" or 500 "Failed to process emails".  It never
    issues more invocations of the orchestrator than it has stored messages,
    nor stores more messages than there are records, and it answers 200
    only after storing and issuing one of each per record. *)
Theorem receiver_always_answers C RC event st :
  let res := EmailReceiver.handler C RC event st in
  let n := length (EmailReceiver.Records event) in
  (res.2 = processed \/ res.2 = notProcessed) /\
  length (newlyInvoked st res.1) <= length (newlyStored st res.1) <= n /\
  (res.2 = processed ->
   length (newlyInvoked st res.1) = n /\ length (newlyStored st res.1) = n).
Proof.
  intros res n. subst res n. unfold newlyInvoked, newlyStored.
  rewrite receiver_handler_unfold.
  destruct (processRecords_prefix C RC (EmailReceiver.Records event) st)
    as (evs & msgs & Hinv & Htr & _ & _ & Hlen & Hok).
  destruct (EmailReceiver.processRecords C RC (EmailReceiver.Records event) st)
    as [st' [[]|e]]; cbn in *.
  all: rewrite Hinv, Htr, !drop_app_length, storedMessages_fmap.
  - destruct (Hok eq_refl). split_and!; auto; lia.
  - split_and!; auto; try lia. discriminate.
Qed.

(** X18. Every invocation of the orchestrator that the receiver issues was
    built from one of the records of the event: it has type
    [email_received] and source [email-receiver], it carries the parsed
    e-mail, the task request extracted from the subject and an empty body,
    and the incoming message, which has an empty body, bears the Message id
    of the e-mail and was stored before the invocation was issued. *)
Theorem invoked_events_come_from_records C RC event st ev :
  ev ∈ newlyInvoked st (EmailReceiver.handler C RC event st).1 ->
  exists record emailData taskRequest,
    record ∈ EmailReceiver.Records event /\
    EmailReceiver.parseEmailEvent RC record = Resolved emailData /\
    EmailReceiver.extractTaskRequest RC (email_subject emailData) "" =
      Resolved taskRequest /\
    ev = mkOrchestratorEvent "email_received"
           (Some (mkEventData emailData taskRequest (incomingMessage emailData)))
           "email-receiver" /\
    msg_id (incomingMessage emailData) = email_messageId emailData /\
    msg_body (incomingMessage emailData) = "" /\
    incomingMessage emailData
      ∈ newlyStored st (EmailReceiver.handler C RC event st).1.
Proof.
  intros Hin.
  destruct (invoked_origin C RC event st ev Hin)
    as (record & m & Hrec & Hev & Hm & Hstored).
  destruct (eventFor_inv RC record ev Hev) as (emailData & tr & Hp & Hx & ->).
  cbn in Hm. injection Hm as <-.
  exists record, emailData, tr. split_and!; done.
Qed.

Lemma X18_witness :
  mkOrchestratorEvent "email_received"
    (Some
       (mkEventData
          (mkEmailData "msg-1" "boss@team.com" ["louie@depalma.work"]
             "Need someone for API documentation" "2025-03-10T08:59:00Z")
          (mkTaskRequest "Need someone for API documentation" None [] None)
          Sample.inboundMessage))
    "email-receiver"
  ∈ newlyInvoked Fixture.emptyInbox
      (EmailReceiver.handler Sample.reliable Fixture.receiver Fixture.batch
         Fixture.emptyInbox).1 /\
  exists record, record ∈ EmailReceiver.Records Fixture.batch /\
    EmailReceiver.mail_messageId record = "msg-1".
Proof.
  assert (mkOrchestratorEvent "email_received"
            (Some
               (mkEventData
                  (mkEmailData "msg-1" "boss@team.com" ["louie@depalma.work"]
                     "Need someone for API documentation" "2025-03-10T08:59:00Z")
                  (mkTaskRequest "Need someone for API documentation" None []
                     None)
                  Sample.inboundMessage))
            "email-receiver"
          ∈ newlyInvoked Fixture.emptyInbox
              (EmailReceiver.handler Sample.reliable Fixture.receiver
                 Fixture.batch Fixture.emptyInbox).1) as Hin.
  { vm_compute. apply list_elem_of_here. }
  split; [exact Hin|].
  destruct (invoked_events_come_from_records _ _ _ _ _ Hin)
    as (record & emailData & tr & Hrec & Hp & _ & Hev & _).
  exists record. split; [exact Hrec|].
  injection Hev as <- _. revert Hp. unfold EmailReceiver.parseEmailEvent; cbn.
  unfold Fixture.parse. destruct (String.eqb _ _); [discriminate|].
  intros [= <-]. reflexivity.
Defined.

(** X19. When the parser and the extractor answer for every record and the
    memory service and the Lambda client accept every request, the receiver
    answers 200 after storing one incoming message and issuing one
    invocation per record, both in the order of the records; an event
    without records is answered 200 with nothing done. *)
Theorem all_records_are_processed C RC event evs st :
  (forall s op, memoryAccepts C s op = true) ->
  (forall ev, EmailReceiver.orchestratorAccepts RC ev = true) ->
  Forall2 (fun r ev => eventFor RC r = Resolved ev)
    (EmailReceiver.Records event) evs ->
  let res := EmailReceiver.handler C RC event st in
  res.2 = processed /\
  EmailReceiver.inbox_invoked res.1 = EmailReceiver.inbox_invoked st ++ evs /\
  newlyStored st res.1 = omap eventMessage evs /\
  length (newlyStored st res.1) = length (EmailReceiver.Records event) /\
  (EmailReceiver.Records event = [] -> res.1 = st).
Proof.
  intros Hmem Hacc Hall res. subst res. unfold newlyStored.
  rewrite receiver_handler_unfold.
  destruct (processRecords_all C RC _ evs st Hmem Hacc Hall)
    as (st' & Hrun & Hinv & msgs & Hmsgs & Hlen & Htr).
  rewrite Hrun in *. cbn. rewrite Htr, drop_app_length, storedMessages_fmap.
  split_and!; try done.
  - rewrite Hlen. symmetry. by eapply Forall2_length.
  - intros Hnil. rewrite Hnil in Hrun. cbn in Hrun.
    unfold EmailReceiver.retR in Hrun. congruence.
Qed.

Lemma X19_witness :
  Forall2 (fun r ev => eventFor Fixture.receiver r = Resolved ev)
    (EmailReceiver.Records Fixture.goodBatch)
    (omap (fun r => resolved (eventFor Fixture.receiver r))
       (EmailReceiver.Records Fixture.goodBatch)) /\
  (EmailReceiver.handler Sample.reliable Fixture.receiver Fixture.goodBatch
     Fixture.emptyInbox).2 = processed.
Proof.
  assert (Forall2 (fun r ev => eventFor Fixture.receiver r = Resolved ev)
            (EmailReceiver.Records Fixture.goodBatch)
            (omap (fun r => resolved (eventFor Fixture.receiver r))
               (EmailReceiver.Records Fixture.goodBatch))) as Hall.
  { repeat constructor. }
  split; [exact Hall|].
  exact (proj1 (all_records_are_processed Sample.reliable Fixture.receiver
                  Fixture.goodBatch _ Fixture.emptyInbox
                  (fun _ _ => eq_refl) (fun _ => eq_refl) Hall)).
Defined.

(** X20. The receiver stops at the first record it cannot turn into an
    event: the records before it are stored and issued, no invocation is
    issued for the failing record nor for any record after it, and the
    answer is 500. *)
Theorem receiver_stops_at_first_failure C RC event good bad rest evs err st :
  (forall s op, memoryAccepts C s op = true) ->
  (forall ev, EmailReceiver.orchestratorAccepts RC ev = true) ->
  EmailReceiver.Records event = good ++ bad :: rest ->
  Forall2 (fun r ev => eventFor RC r = Resolved ev) good evs ->
  eventFor RC bad = Rejected err ->
  let res := EmailReceiver.handler C RC event st in
  res.2 = notProcessed /\
  EmailReceiver.inbox_invoked res.1 = EmailReceiver.inbox_invoked st ++ evs /\
  length evs = length good.
Proof.
  intros Hmem Hacc Hrecords Hall Hbad res. subst res.
  rewrite receiver_handler_unfold, Hrecords, processRecords_app.
  destruct (processRecords_all C RC good evs st Hmem Hacc Hall)
    as (st1 & -> & Hinv & _).
  rewrite processRecords_cons.
  destruct (processEmailRecord_cases C RC bad st1)
    as [(ev & m & Hev & _)|((e & Hres) & Hinv' & _)]; [congruence|].
  destruct (EmailReceiver.processEmailRecord C RC bad st1) as [st2 o].
  cbn in *. subst o. cbn. rewrite Hinv', Hinv.
  split_and!; try done. symmetry. by eapply Forall2_length.
Qed.

Lemma X20_witness :
  EmailReceiver.Records Fixture.batch =
    [Fixture.record "msg-1" "boss@team.com"] ++
    Fixture.record "msg-2" "" :: [Fixture.record "msg-3" "ann@team.com"] /\
  (EmailReceiver.handler Sample.reliable Fixture.receiver Fixture.batch
     Fixture.emptyInbox).2 = notProcessed /\
  length
    (EmailReceiver.inbox_invoked
       (EmailReceiver.handler Sample.reliable Fixture.receiver Fixture.batch
          Fixture.emptyInbox).1) = 1.
Proof.
  split; [reflexivity|].
  assert (Forall2 (fun r ev => eventFor Fixture.receiver r = Resolved ev)
            [Fixture.record "msg-1" "boss@team.com"]
            (omap (fun r => resolved (eventFor Fixture.receiver r))
               [Fixture.record "msg-1" "boss@team.com"])) as Hgood
    by repeat constructor.
  destruct (receiver_stops_at_first_failure Sample.reliable Fixture.receiver
              Fixture.batch [Fixture.record "msg-1" "boss@team.com"]
              (Fixture.record "msg-2" "")
              [Fixture.record "msg-3" "ann@team.com"]
              (omap (fun r => resolved (eventFor Fixture.receiver r))
                 [Fixture.record "msg-1" "boss@team.com"])
              (newError "no sender") Fixture.emptyInbox
              (fun _ _ => eq_refl) (fun _ => eq_refl) eq_refl Hgood eq_refl)
    as (Hres & Hinv & _).
  split; [exact Hres|]. rewrite Hinv. reflexivity.
Defined.

(** X21. From an e-mail to a Task: when the orchestrator handles an
    invocation issued by the receiver, every version of the Task it writes
    names the sender of the parsed e-mail as requester and takes its
    description, deadline and required skills from the task request that was
    extracted from the subject of that e-mail with an empty body. *)
Theorem received_mail_becomes_task C RC event st ev C' w t :
  ev ∈ newlyInvoked st (EmailReceiver.handler C RC event st).1 ->
  t ∈ taskWrites (runTrace (Orchestrator.handler C' ev) w) ->
  exists record emailData taskRequest,
    record ∈ EmailReceiver.Records event /\
    EmailReceiver.parseEmailEvent RC record = Resolved emailData /\
    EmailReceiver.extractTaskRequest RC (email_subject emailData) "" =
      Resolved taskRequest /\
    task_requestedBy t = email_from emailData /\
    task_description t = request_description taskRequest /\
    task_deadline t = request_deadline taskRequest /\
    task_skillsRequired t = request_skillsRequired taskRequest.
Proof.
  intros Hin Ht.
  destruct (invoked_origin C RC event st ev Hin)
    as (record & m & Hrec & Hev & _ & _).
  destruct (eventFor_inv RC record ev Hev)
    as (emailData & taskRequest & Hp & Hx & ->).
  destruct (task_write_fields C' _ w t Ht)
    as (d & Hd & _ & Hdesc & Hdl & Hsk & Hby & _).
  cbn in Hd. injection Hd as <-. cbn in *.
  exists record, emailData, taskRequest. split_and!; done.
Qed.

Lemma X21_witness :
  mkTask "task-0" "Need someone for API documentation" None [] "medium"
    pending "boss@team.com" None "2025-03-10T09:00:00Z" "2025-03-10T09:00:01Z"
  ∈ taskWrites
      (runTrace
         (Orchestrator.handler Sample.reliable
            (mkOrchestratorEvent "email_received"
               (Some
                  (mkEventData
                     (mkEmailData "msg-1" "boss@team.com" ["louie@depalma.work"]
                        "Need someone for API documentation"
                        "2025-03-10T08:59:00Z")
                     (mkTaskRequest "Need someone for API documentation" None
                        [] None)
                     Sample.inboundMessage))
               "email-receiver")) initialWorld) /\
  exists record, record ∈ EmailReceiver.Records Fixture.batch.
Proof.
  assert (mkTask "task-0" "Need someone for API documentation" None []
            "medium" pending "boss@team.com" None "2025-03-10T09:00:00Z"
            "2025-03-10T09:00:01Z"
          ∈ taskWrites
              (runTrace
                 (Orchestrator.handler Sample.reliable
                    (mkOrchestratorEvent "email_received"
                       (Some
                          (mkEventData
                             (mkEmailData "msg-1" "boss@team.com"
                                ["louie@depalma.work"]
                                "Need someone for API documentation"
                                "2025-03-10T08:59:00Z")
                             (mkTaskRequest "Need someone for API documentation"
                                None [] None)
                             Sample.inboundMessage))
                       "email-receiver")) initialWorld)) as Ht.
  { vm_compute. apply list_elem_of_here. }
  split; [exact Ht|].
  assert (mkOrchestratorEvent "email_received"
            (Some
               (mkEventData
                  (mkEmailData "msg-1" "boss@team.com" ["louie@depalma.work"]
                     "Need someone for API documentation" "2025-03-10T08:59:00Z")
                  (mkTaskRequest "Need someone for API documentation" None []
                     None)
                  Sample.inboundMessage))
            "email-receiver"
          ∈ newlyInvoked Fixture.emptyInbox
              (EmailReceiver.handler Sample.reliable Fixture.receiver
                 Fixture.batch Fixture.emptyInbox).1) as Hin.
  { vm_compute. apply list_elem_of_here. }
  destruct (received_mail_becomes_task _ _ _ _ _ _ _ _ Hin Ht)
    as (record & _ & _ & Hrec & _).
  exists record. exact Hrec.
Defined.

(** ** Ids over a sequence of runs *)

Lemma handler_keeps_drawnIds C e w :
  drawnIds C w -> drawnIds C (Orchestrator.handler C e w).1.
Proof.
  unfold drawnIds. intros Hinv. unfold_js. ask_all.
  all: unfold MemoryService.putDecision, MemoryService.putTask; cbn.
  all: intros id Hid; rewrite ?lookup_insert_is_Some' in Hid.
  all: try (destruct (Hinv id Hid) as (k & Hk & ->); exists k; split; [lia|done]).
  all: repeat (destruct Hid as [<-|Hid]; [exists (uuidCalls w); split; [lia|done]|]).
  all: destruct (Hinv id Hid) as (k & Hk & ->); exists k; split; [lia|done].
Qed.

Lemma drawnIds_fresh C w :
  Inj (=) (=) (uuidv4_nth C) -> drawnIds C w ->
  store_tasks (store w) !! uuidv4_nth C (uuidCalls w) = None.
Proof.
  intros Hinj Hinv. apply eq_None_not_Some. intros Hsome.
  destruct (Hinv _ Hsome) as (k & Hk & Heq). apply Hinj in Heq. lia.
Qed.

(** X22. When [uuidv4] never repeats an id, every run of a sequence of
    events handled one after the other from the empty store draws an id
    that no stored Task bears: all stored Task ids are ids drawn earlier,
    before and after every run, and the e-mail sender, which draws ids for
    its Messages, does not disturb this. *)
Theorem successive_runs_draw_fresh_ids C events :
  Inj (=) (=) (uuidv4_nth C) ->
  let w := handleAll C events initialWorld in
  drawnIds C w /\
  store_tasks (store w) !! uuidv4_nth C (uuidCalls w) = None /\
  (forall ev, drawnIds C (EmailSender.handler C ev w).1).
Proof.
  intros Hinj w. subst w.
  assert (drawnIds C (handleAll C events initialWorld)) as Hinv.
  { assert (drawnIds C initialWorld) as H0.
    { intros id [t Ht]. cbn in Ht. by rewrite lookup_empty in Ht. }
    revert H0. generalize initialWorld.
    induction events as [|e rest IH]; intros w Hw; [exact Hw|].
    cbn [handleAll]. apply IH. by apply handler_keeps_drawnIds. }
  split_and!; [exact Hinv | by apply drawnIds_fresh |].
  intros ev. revert Hinv. generalize (handleAll C events initialWorld).
  unfold drawnIds. intros w Hinv. unfold_js.
  destruct (String.eqb (sender_type ev) "assignment_email");
    [|destruct (String.eqb (sender_type ev) "notification_email")].
  all: ask_all; intros id Hid.
  all: destruct (Hinv id Hid) as (k & Hk & ->); exists k; split; [lia|done].
Qed.

Lemma tally_inj : Inj (=) (=) Fixture.tally.
Proof.
  intros n. induction n as [|n IH]; intros [|m] H; cbn in H; try done.
  injection H as H. f_equal. by apply IH.
Qed.

Lemma X22_witness :
  Inj (=) (=) (uuidv4_nth Fixture.counting) /\
  store_tasks
    (store (handleAll Fixture.counting
              [Sample.request ["docs"]; Sample.request ["docs"]] initialWorld))
    !! Fixture.tally 2 = None.
Proof.
  split; [exact tally_inj|].
  exact (proj1 (proj2
    (successive_runs_draw_fresh_ids Fixture.counting
       [Sample.request ["docs"]; Sample.request ["docs"]] tally_inj))).
Defined.

(** X23. No run consults the scheduler twice: a run consults it once or not
    at all, the consultation counter grows by exactly that, and a Decision
    is only ever recorded in a run whose one consultation resolved.  The
    handler has no loop around the consultation. *)
Theorem scheduler_is_consulted_at_most_once C e w :
  let run := Orchestrator.handler C e w in
  let tr := runTrace (Orchestrator.handler C e) w in
  (consultations tr = [] \/ consultations tr = [optimizerCalls w]) /\
  optimizerCalls run.1 = optimizerCalls w + length (consultations tr) /\
  optimizerCalls run.1 <= S (optimizerCalls w) /\
  (forall d, d ∈ decisionWrites tr ->
     consultations tr = [optimizerCalls w] /\
     exists task teamData r,
       schedulerRecommendation C (optimizerCalls w) task teamData = Resolved r).
Proof.
  intros run tr. subst run tr.
  split_and!; [ | | apply handler_consults_once | ].
  - unfold runTrace. unfold_js. ask_all.
    all: rewrite <- ?app_assoc, ?drop_app_length, ?drop_all; cbn; auto.
  - unfold runTrace. unfold_js. ask_all.
    all: rewrite <- ?app_assoc, ?drop_app_length, ?drop_all; cbn; lia.
  - unfold runTrace. unfold_js. ask_all.
    all: rewrite <- ?app_assoc, ?drop_app_length, ?drop_all; cbn.
    all: intros d Hin; members Hin.
    all: split; [reflexivity | eauto].
Qed.
